(** * protoc-gen-bq-schema: the type registry and the schema converter

    A shallow embedding of [main.go]: the package tree ([ProtoPackage],
    [registerType]), the resolution of type references ([lookupType],
    [relativelyLookupType], [relativelyLookupNestedType]), and the
    conversion of message descriptors into BigQuery columns
    ([convertField], [convertMessageType], [convertFile], [Convert]). *)

From Stdlib Require Import String Ascii List ZArith Lia DecimalString.
From Stdlib Require DecimalZ DecimalPos.
From stdpp Require Import gmap strings.
From Equations Require Import Equations.
Import ListNotations.
Open Scope string_scope.
Set Warnings "-register-all".

(** ** Strings: the pieces of Go's [strings] and [fmt] that the source uses *)

Module GoStrings.

Definition sep : ascii := "."%char.

(** [strings.HasPrefix(s, ".")] *)
Definition HasPrefixDot (s : string) : bool :=
  match s with
  | String c _ => Ascii.eqb c sep
  | EmptyString => false
  end.

(** [s[1:len(s)]] *)
Definition tail1 (s : string) : string :=
  match s with
  | String _ r => r
  | EmptyString => EmptyString
  end.

(** [strings.Split(s, ".")]: never empty; the empty string gives [""]. *)
Fixpoint Split (s : string) : list string :=
  match s with
  | EmptyString => [EmptyString]
  | String c r =>
      if Ascii.eqb c sep then EmptyString :: Split r
      else match Split r with
           | h :: t => String c h :: t
           | [] => [String c EmptyString]
           end
  end.

(** The text before the first separator and, when there is a separator,
    the text after it. *)
Fixpoint cut (s : string) : string * option string :=
  match s with
  | EmptyString => (EmptyString, None)
  | String c r =>
      if Ascii.eqb c sep then (EmptyString, Some r)
      else let '(h, t) := cut r in (String c h, t)
  end.

(** [strings.SplitN(s, ".", 2)]: one or two components. *)
Definition SplitN2 (s : string) : list string :=
  match cut s with
  | (h, None) => [h]
  | (h, Some t) => [h; t]
  end.

(** [strings.Replace(s, ".", "/", -1)] *)
Fixpoint ReplaceDotSlash (s : string) : string :=
  match s with
  | EmptyString => EmptyString
  | String c r =>
      String (if Ascii.eqb c sep then "/"%char else c) (ReplaceDotSlash r)
  end.

(** The verb [%d] on an integer: plain decimal, a minus sign when negative. *)
Definition fmt_d (z : Z) : string := NilZero.string_of_int (Z.to_int z).

(** [len(s) > 0] *)
Definition nonempty (s : string) : bool :=
  match s with
  | EmptyString => false
  | String _ _ => true
  end.

(** No separator occurs in [s]. *)
Fixpoint dotfree (s : string) : bool :=
  match s with
  | EmptyString => true
  | String c r => negb (Ascii.eqb c sep) && dotfree r
  end.

End GoStrings.
Import GoStrings.

(** ** Descriptors (package [descriptor]): the input

    A field of a descriptor holds what its generated getter returns (the
    default when the pointer is nil), except where the source looks at the
    pointer itself: a file's [Package] and the [Options] of a message or of a
    field. *)

Definition error : Type := string.

(** An extension slot of an options message: [proto.HasExtension] says whether
    the slot is filled, [proto.GetExtension] decodes it and can fail. *)
Inductive ext (A : Type) : Type :=
| ExtAbsent
| ExtValue (a : A)
| ExtBad (e : error).
Arguments ExtAbsent {A}.
Arguments ExtValue {A} a.
Arguments ExtBad {A} e.

Definition HasExtension {A} (x : ext A) : bool :=
  match x with
  | ExtAbsent => false
  | _ => true
  end.

Definition ErrMissingExtension : error := "proto: missing extension".

(** The two results of [proto.GetExtension]: the value (nil on failure) and
    the error (nil on success). *)
Definition GetExtension {A} (x : ext A) : option A * option error :=
  match x with
  | ExtAbsent => (None, Some ErrMissingExtension)
  | ExtValue a => (Some a, None)
  | ExtBad e => (None, Some e)
  end.

(** Modelled from the spec: the generated package [protos] is not among the
    sources. [BigQueryFieldOptions] has the five independent overrides of a
    field (drop flag, force-required flag, type override, name override,
    description), read by the source as [Ignore], [Require], [TypeOverride],
    [Name] and [Description]. *)
Record BigQueryFieldOptions : Type := {
  opt_Require : bool;
  opt_TypeOverride : string;
  opt_Name : string;
  opt_Description : string;
  opt_Ignore : bool
}.

(** Modelled from the spec: [BigQueryMessageOptions] of package [protos], with
    the table name and the request for the wire-safe alternate names. *)
Record BigQueryMessageOptions : Type := {
  TableName : string;
  UseJsonNames : bool
}.

(** The getters of a generated message accept a nil receiver. *)
Definition GetUseJsonNames (o : option BigQueryMessageOptions) : bool :=
  match o with
  | Some m => UseJsonNames m
  | None => false
  end.

Definition GetTableName (o : option BigQueryMessageOptions) : string :=
  match o with
  | Some m => TableName m
  | None => ""
  end.

(** [descriptor.FieldOptions] with the slot of [protos.E_Bigquery]. *)
Record FieldOptions : Type := {
  E_Bigquery : ext BigQueryFieldOptions
}.

(** [descriptor.MessageOptions] with the slots of [faceit.E_EventName] and
    [faceit.E_EventVersion]. The options reach the converter already typed:
    a slot that decodes holds the value of the annotation itself, a string
    for the event name and an integer for the event version. *)
Record MessageOptions : Type := {
  E_EventName : ext string;
  E_EventVersion : ext Z
}.

(** [descriptor.FieldDescriptorProto]; label and kind are the enum numbers. *)
Record FieldDescriptorProto : Type := {
  fd_Name : string;
  fd_JsonName : string;
  fd_Label : Z;
  fd_Type : Z;
  fd_TypeName : string;
  fd_Options : option FieldOptions
}.

(** [descriptor.DescriptorProto] *)
Inductive DescriptorProto : Type := mkDescriptorProto {
  d_Name : string;
  d_Field : list FieldDescriptorProto;
  d_NestedType : list DescriptorProto;
  d_Options : option MessageOptions
}.

(** [descriptor.FileDescriptorProto] *)
Record FileDescriptorProto : Type := {
  file_Name : string;
  file_Package : option string;
  file_MessageType : list DescriptorProto
}.

Definition GetPackage (f : FileDescriptorProto) : string :=
  match file_Package f with
  | Some p => p
  | None => ""
  end.

(** ** The package tree *)

(** [ProtoPackage]. The back-reference [parent] of the source is not a field
    here: a node in use is given with the chain of the nodes that enclose it,
    itself first and the root last, which is what following [parent] visits. *)
Inductive ProtoPackage : Type := mkProtoPackage {
  name : string;
  children : gmap string ProtoPackage;
  types : gmap string DescriptorProto
}.

(** The initial [globalPkg]. *)
Definition globalPkg0 : ProtoPackage :=
  {| name := ""; children := ∅; types := ∅ |}.

(** A [*ProtoPackage] in use: the node, then its parent, and so on up to the
    root; the nil pointer is the empty chain. *)
Definition PkgRef : Type := list ProtoPackage.

Definition setTypes (pkg : ProtoPackage) (k : string) (msg : DescriptorProto)
  : ProtoPackage :=
  {| name := name pkg; children := children pkg;
     types := <[k := msg]> (types pkg) |}.

Definition setChild (pkg : ProtoPackage) (k : string) (child : ProtoPackage)
  : ProtoPackage :=
  {| name := name pkg; children := <[k := child]> (children pkg);
     types := types pkg |}.

(** The node that [registerType] makes when [pkg] has no child [node]. *)
Definition newChild (pkg : ProtoPackage) (node : string) : ProtoPackage :=
  {| name := name pkg ++ "." ++ node; children := ∅; types := ∅ |}.

(** The loop of [registerType] over the components of the package path,
    followed by the insertion of the message. [atRoot] is the test
    [pkg == globalPkg]: it holds until the walk enters a child. The writes
    through pointers of the source are the rebuilt path here. *)
Fixpoint registerAt (atRoot : bool) (pkg : ProtoPackage) (nodes : list string)
    (msg : DescriptorProto) : ProtoPackage :=
  match nodes with
  | [] => setTypes pkg (d_Name msg) msg
  | node :: rest =>
      if atRoot && String.eqb node "" then registerAt true pkg rest msg
      else
        let child := match children pkg !! node with
                     | Some child => child
                     | None => newChild pkg node
                     end in
        setChild pkg node (registerAt false child rest msg)
  end.

Definition registerType (globalPkg : ProtoPackage) (pkgName : option string)
    (msg : DescriptorProto) : ProtoPackage :=
  registerAt true globalPkg
    (match pkgName with
     | Some p => Split p
     | None => []
     end) msg.

(** The loop [componentLoop] of [relativelyLookupNestedType]. *)
Fixpoint nestedLoop (desc : DescriptorProto) (components : list string)
  : option DescriptorProto :=
  match components with
  | [] => Some desc
  | component :: rest =>
      match List.find (fun nested => String.eqb (d_Name nested) component)
                      (d_NestedType desc) with
      | Some nested => nestedLoop nested rest
      | None => None
      end
  end.

Definition relativelyLookupNestedType (desc : DescriptorProto) (nm : string)
  : option DescriptorProto :=
  nestedLoop desc (Split nm).

(** The method [relativelyLookupType]; the second result [ok] of the
    source is whether the result is [Some]. The cases of no component and of
    more than two end without a result; [SplitN2] never produces them. *)
Equations? (noeqns noind) relativelyLookupType (pkg : ProtoPackage) (nm : string)
  : option DescriptorProto by wf (String.length nm) lt :=
  relativelyLookupType pkg nm with Logic.inspect (SplitN2 nm) := {
    | exist _ [] _ => None
    | exist _ [c0] _ => types pkg !! c0
    | exist _ [c0; c1] H =>
        match children pkg !! c0 with
        | Some child => relativelyLookupType child c1
        | None =>
            match types pkg !! c0 with
            | Some msg => relativelyLookupNestedType msg c1
            | None => None
            end
        end
    | exist _ _ _ => None }.
Proof.
  clear relativelyLookupType. unfold SplitN2 in H.
  destruct (cut nm) as [h [t|]] eqn:E; inversion H; subst; clear H.
  revert c0 E. induction nm as [|c r IH]; intros h; simpl.
  - discriminate.
  - destruct (Ascii.eqb c sep).
    + intros H. inversion H; subst. lia.
    + destruct (cut r) as [h' t'] eqn:E. intros H. inversion H; subst.
      specialize (IH _ eq_refl). lia.
Qed.

(** The upward loop of [lookupType]. *)
Fixpoint lookupUp (pkg : PkgRef) (nm : string) : option DescriptorProto :=
  match pkg with
  | [] => None
  | p :: parent =>
      match relativelyLookupType p nm with
      | Some desc => Some desc
      | None => lookupUp parent nm
      end
  end.

(** The method [lookupType]. *)
Definition lookupType (globalPkg : ProtoPackage) (pkg : PkgRef) (nm : string)
  : option DescriptorProto :=
  if HasPrefixDot nm then relativelyLookupType globalPkg (tail1 nm)
  else lookupUp pkg nm.

(** The loop of [relativelyLookupPackage]. *)
Fixpoint walkPackage (pkg : PkgRef) (components : list string)
  : option PkgRef :=
  match components with
  | [] => Some pkg
  | c :: rest =>
      match pkg with
      | [] => None
      | p :: _ =>
          match children p !! c with
          | Some child => walkPackage (child :: pkg) rest
          | None => None
          end
      end
  end.

(** The method [relativelyLookupPackage]. *)
Definition relativelyLookupPackage (pkg : PkgRef) (nm : string)
  : option PkgRef :=
  walkPackage pkg (Split nm).

(** ** The static tables *)

Module Enum.
(** [FieldDescriptorProto_Label] *)
Definition LABEL_OPTIONAL : Z := 1.
Definition LABEL_REQUIRED : Z := 2.
Definition LABEL_REPEATED : Z := 3.

(** [FieldDescriptorProto_Type] *)
Definition TYPE_DOUBLE : Z := 1.
Definition TYPE_FLOAT : Z := 2.
Definition TYPE_INT64 : Z := 3.
Definition TYPE_UINT64 : Z := 4.
Definition TYPE_INT32 : Z := 5.
Definition TYPE_FIXED64 : Z := 6.
Definition TYPE_FIXED32 : Z := 7.
Definition TYPE_BOOL : Z := 8.
Definition TYPE_STRING : Z := 9.
Definition TYPE_GROUP : Z := 10.
Definition TYPE_MESSAGE : Z := 11.
Definition TYPE_BYTES : Z := 12.
Definition TYPE_UINT32 : Z := 13.
Definition TYPE_ENUM : Z := 14.
Definition TYPE_SFIXED32 : Z := 15.
Definition TYPE_SFIXED64 : Z := 16.
Definition TYPE_SINT32 : Z := 17.
Definition TYPE_SINT64 : Z := 18.

Definition Label_name : gmap Z string :=
  list_to_map
    [(LABEL_OPTIONAL, "LABEL_OPTIONAL"); (LABEL_REQUIRED, "LABEL_REQUIRED");
     (LABEL_REPEATED, "LABEL_REPEATED")].

Definition Type_name : gmap Z string :=
  list_to_map
    [(TYPE_DOUBLE, "TYPE_DOUBLE"); (TYPE_FLOAT, "TYPE_FLOAT");
     (TYPE_INT64, "TYPE_INT64"); (TYPE_UINT64, "TYPE_UINT64");
     (TYPE_INT32, "TYPE_INT32"); (TYPE_FIXED64, "TYPE_FIXED64");
     (TYPE_FIXED32, "TYPE_FIXED32"); (TYPE_BOOL, "TYPE_BOOL");
     (TYPE_STRING, "TYPE_STRING"); (TYPE_GROUP, "TYPE_GROUP");
     (TYPE_MESSAGE, "TYPE_MESSAGE"); (TYPE_BYTES, "TYPE_BYTES");
     (TYPE_UINT32, "TYPE_UINT32"); (TYPE_ENUM, "TYPE_ENUM");
     (TYPE_SFIXED32, "TYPE_SFIXED32"); (TYPE_SFIXED64, "TYPE_SFIXED64");
     (TYPE_SINT32, "TYPE_SINT32"); (TYPE_SINT64, "TYPE_SINT64")].

(** The method [String] of a generated enum: the name of the value, or its
    number in decimal when it has none. *)
Definition EnumName (names : gmap Z string) (v : Z) : string :=
  match names !! v with
  | Some s => s
  | None => fmt_d v
  end.
End Enum.
Import Enum.

Definition typeFromWKT : gmap string string :=
  list_to_map
    [(".google.protobuf.Int32Value", "INTEGER");
     (".google.protobuf.Int64Value", "INTEGER");
     (".google.protobuf.UInt32Value", "INTEGER");
     (".google.protobuf.UInt64Value", "INTEGER");
     (".google.protobuf.DoubleValue", "FLOAT");
     (".google.protobuf.FloatValue", "FLOAT");
     (".google.protobuf.BoolValue", "BOOLEAN");
     (".google.protobuf.StringValue", "STRING");
     (".google.protobuf.BytesValue", "BYTES");
     (".google.protobuf.Duration", "STRING");
     (".google.protobuf.Timestamp", "TIMESTAMP")].

Definition typeFromFieldType : gmap Z string :=
  list_to_map
    [(TYPE_DOUBLE, "FLOAT"); (TYPE_FLOAT, "FLOAT");
     (TYPE_INT64, "INTEGER"); (TYPE_UINT64, "INTEGER");
     (TYPE_INT32, "INTEGER"); (TYPE_UINT32, "INTEGER");
     (TYPE_FIXED64, "INTEGER"); (TYPE_FIXED32, "INTEGER");
     (TYPE_SFIXED32, "INTEGER"); (TYPE_SFIXED64, "INTEGER");
     (TYPE_SINT32, "INTEGER"); (TYPE_SINT64, "INTEGER");
     (TYPE_STRING, "STRING"); (TYPE_BYTES, "BYTES"); (TYPE_ENUM, "STRING");
     (TYPE_BOOL, "BOOLEAN");
     (TYPE_GROUP, "RECORD"); (TYPE_MESSAGE, "RECORD")].

Definition modeFromFieldLabel : gmap Z string :=
  list_to_map
    [(LABEL_OPTIONAL, "NULLABLE"); (LABEL_REQUIRED, "REQUIRED");
     (LABEL_REPEATED, "REPEATED")].

(** ** The converter *)

(** [Field]: a column of the schema. *)
Inductive Field : Type := mkField {
  Name : string;
  Type_ : string;
  Mode : string;
  Description : string;
  Fields : list Field
}.

Definition setName (f : Field) (s : string) : Field :=
  mkField s (Type_ f) (Mode f) (Description f) (Fields f).
Definition setType (f : Field) (s : string) : Field :=
  mkField (Name f) s (Mode f) (Description f) (Fields f).
Definition setMode (f : Field) (s : string) : Field :=
  mkField (Name f) (Type_ f) s (Description f) (Fields f).
Definition setDescription (f : Field) (s : string) : Field :=
  mkField (Name f) (Type_ f) (Mode f) s (Fields f).
Definition setFields (f : Field) (l : list Field) : Field :=
  mkField (Name f) (Type_ f) (Mode f) (Description f) l.

(** What a function of the source with results [(x, error)] does: it returns
    [x] with a nil error, returns an error, or, in this model of a recursion
    that the source does not bound, has no fuel left to go on. *)
Inductive result (A : Type) : Type :=
| Ok (a : A)
| Err (e : error)
| NoFuel.
Arguments Ok {A} a.
Arguments Err {A} e.
Arguments NoFuel {A}.

(** The verb [%s] on the first result of [GetExtension] for a string slot. *)
Definition fmt_s (v : option string) : string :=
  match v with
  | Some s => s
  | None => "%!s(<nil>)"
  end.

(** The verb [%d] on the first result of [GetExtension] for an integer slot. *)
Definition fmt_d_iface (v : option Z) : string :=
  match v with
  | Some z => fmt_d z
  | None => "%!d(<nil>)"
  end.

(** [getBigqueryMessageOptions] *)
Definition getBigqueryMessageOptions (msg : DescriptorProto)
  : result (option BigQueryMessageOptions) :=
  match d_Options msg with
  | None => Ok None
  | Some options =>
      if negb (HasExtension (E_EventName options))
         || negb (HasExtension (E_EventVersion options))
      then Ok None
      else
        let '(eventName, err) := GetExtension (E_EventName options) in
        match eventName with
        | Some "" =>
            match err with
            | Some e => Err e
            | None => Ok None
            end
        | _ =>
            let '(eventVersion, err) := GetExtension (E_EventVersion options) in
            match err with
            | Some e => Err e
            | None =>
                Ok (Some {| TableName :=
                              fmt_s eventName ++ "_v" ++ fmt_d_iface eventVersion;
                            UseJsonNames := false |})
            end
        end
  end.

(** The first part of [convertField], up to and including the field-level
    options: the column with its name, mode and type and the overrides
    applied, nothing when the field is to be skipped, or an error.
    [GetExtension] gives a value or an error, so that the case of neither,
    in which the source would dereference nil, does not arise. *)
Definition columnHead (desc : FieldDescriptorProto)
    (msgOpts : option BigQueryMessageOptions) : result (option Field) :=
  let field := mkField (fd_Name desc) "" "" "" [] in
  let field :=
    if GetUseJsonNames msgOpts && nonempty (fd_JsonName desc)
    then setName field (fd_JsonName desc) else field in
  match modeFromFieldLabel !! fd_Label desc with
  | None =>
      Err ("unrecognized field label: " ++ EnumName Label_name (fd_Label desc))
  | Some mode =>
  let field := setMode field mode in
  match typeFromFieldType !! fd_Type desc with
  | None =>
      Err ("unrecognized field type: " ++ EnumName Type_name (fd_Type desc))
  | Some ty =>
  let field := setType field ty in
  match fd_Options desc with
  | Some opts =>
      if HasExtension (E_Bigquery opts) then
        match GetExtension (E_Bigquery opts) with
        | (_, Some err) => Err err
        | (None, None) => Err ErrMissingExtension
        | (Some opt, None) =>
            if opt_Ignore opt then Ok None
            else
              let field :=
                if opt_Require opt then setMode field "REQUIRED" else field in
              let field :=
                if nonempty (opt_TypeOverride opt)
                then setType field (opt_TypeOverride opt) else field in
              let field :=
                if nonempty (opt_Name opt)
                then setName field (opt_Name opt) else field in
              let field :=
                if nonempty (opt_Description opt)
                then setDescription field (opt_Description opt) else field in
              Ok (Some field)
        end
      else Ok (Some field)
  | None => Ok (Some field)
  end end end.

(** The loop of [convertMessageType] over the fields of a message, with the
    conversion of one field as [cf]. *)
Fixpoint convertFields (cf : FieldDescriptorProto -> result (option Field))
    (fields : list FieldDescriptorProto) (schema : list Field)
  : result (list Field) :=
  match fields with
  | [] => Ok schema
  | fieldDesc :: rest =>
      match cf fieldDesc with
      | Err err => Err err
      | NoFuel => NoFuel
      | Ok None => convertFields cf rest schema
      | Ok (Some field) => convertFields cf rest (schema ++ [field])
      end
  end.

(** [convertField]: [columnHead], then the treatment of a record. The source
    recurses through [convertMessageType] without a bound; [fuel] bounds the
    depth of that recursion and is looked at only where the source recurses. *)
Fixpoint convertField (fuel : nat) (globalPkg : ProtoPackage) (curPkg : PkgRef)
    (desc : FieldDescriptorProto) (msgOpts : option BigQueryMessageOptions)
    {struct fuel} : result (option Field) :=
  match columnHead desc msgOpts with
  | Err err => Err err
  | NoFuel => NoFuel
  | Ok None => Ok None
  | Ok (Some field) =>
  if negb (String.eqb (Type_ field) "RECORD") then Ok (Some field)
  else
  match typeFromWKT !! fd_TypeName desc with
  | Some t => Ok (Some (setType field t))
  | None =>
  match lookupType globalPkg curPkg (fd_TypeName desc) with
  | None => Err ("no such message type named " ++ fd_TypeName desc)
  | Some recordType =>
  match getBigqueryMessageOptions recordType with
  | Err err => Err err
  | NoFuel => NoFuel
  | Ok fieldMsgOpts =>
  match fuel with
  | O => NoFuel
  | S fuel' =>
  match convertFields
          (fun fieldDesc =>
             convertField fuel' globalPkg curPkg fieldDesc fieldMsgOpts)
          (d_Field recordType) [] with
  | Err err => Err err
  | NoFuel => NoFuel
  | Ok fields =>
      match fields with
      | [] => Ok None
      | _ :: _ => Ok (Some (setFields field fields))
      end
  end end end end end end.

(** [convertMessageType] *)
Definition convertMessageType (fuel : nat) (globalPkg : ProtoPackage)
    (curPkg : PkgRef) (msg : DescriptorProto)
    (opts : option BigQueryMessageOptions) : result (list Field) :=
  convertFields (fun fieldDesc => convertField fuel globalPkg curPkg fieldDesc opts)
    (d_Field msg) [].

(** [plugin.CodeGeneratorResponse_File]. [rf_Content] is the schema whose
    indented JSON text the source stores; the encoding of a list of columns
    does not fail. *)
Record CodeGeneratorResponse_File : Type := {
  rf_Name : string;
  rf_Content : list Field
}.

(** The loop of [convertFile] over the messages of the file. *)
Fixpoint convertMessages (fuel : nat) (globalPkg : ProtoPackage) (pkg : PkgRef)
    (file : FileDescriptorProto) (msgs : list DescriptorProto)
    (response : list CodeGeneratorResponse_File)
  : result (list CodeGeneratorResponse_File) :=
  match msgs with
  | [] => Ok response
  | msg :: rest =>
      match getBigqueryMessageOptions msg with
      | Err err => Err err
      | NoFuel => NoFuel
      | Ok None => convertMessages fuel globalPkg pkg file rest response
      | Ok (Some o) =>
          let tableName := GetTableName (Some o) in
          if negb (nonempty tableName)
          then convertMessages fuel globalPkg pkg file rest response
          else
            match convertMessageType fuel globalPkg pkg msg (Some o) with
            | Err err => Err err
            | NoFuel => NoFuel
            | Ok schema =>
                let resFile :=
                  {| rf_Name := ReplaceDotSlash (GetPackage file) ++ "/"
                                ++ tableName ++ ".schema";
                     rf_Content := schema |} in
                convertMessages fuel globalPkg pkg file rest
                  (response ++ [resFile])
            end
      end
  end.

(** [convertFile] *)
Definition convertFile (fuel : nat) (globalPkg : ProtoPackage)
    (file : FileDescriptorProto) : result (list CodeGeneratorResponse_File) :=
  match relativelyLookupPackage [globalPkg] (GetPackage file) with
  | None => Err ("no such package found: " ++ GetPackage file)
  | Some pkg =>
      convertMessages fuel globalPkg pkg file (file_MessageType file) []
  end.

(** [plugin.CodeGeneratorRequest] *)
Record CodeGeneratorRequest : Type := {
  FileToGenerate : list string;
  ProtoFile : list FileDescriptorProto
}.

(** [plugin.CodeGeneratorResponse] *)
Record CodeGeneratorResponse : Type := {
  Error : option string;
  File : list CodeGeneratorResponse_File
}.

(** The first loop of [Convert]: every message of every file is registered. *)
Definition registerFile (globalPkg : ProtoPackage) (file : FileDescriptorProto)
  : ProtoPackage :=
  fold_left (fun g msg => registerType g (file_Package file) msg)
            (file_MessageType file) globalPkg.

Definition registerAll (globalPkg : ProtoPackage)
    (files : list FileDescriptorProto) : ProtoPackage :=
  fold_left registerFile files globalPkg.

(** The map [generateTargets] of [Convert]. *)
Definition targetsOf (files : list string) : gmap string bool :=
  fold_left (fun m file => <[file := true]> m) files ∅.

(** The second loop of [Convert]: the response so far and the error. *)
Fixpoint convertRequested (fuel : nat) (globalPkg : ProtoPackage)
    (generateTargets : gmap string bool) (files : list FileDescriptorProto)
    (res : CodeGeneratorResponse)
  : option (CodeGeneratorResponse * option error) :=
  match files with
  | [] => Some (res, None)
  | file :: rest =>
      match generateTargets !! file_Name file with
      | Some _ =>
          match convertFile fuel globalPkg file with
          | Err err =>
              Some ({| Error := Some ("Failed to convert " ++ file_Name file
                                      ++ ": " ++ err);
                       File := File res |}, Some err)
          | NoFuel => None
          | Ok converted =>
              convertRequested fuel globalPkg generateTargets rest
                {| Error := Error res; File := File res ++ converted |}
          end
      | None => convertRequested fuel globalPkg generateTargets rest res
      end
  end.

(** [Convert], run with the package tree [globalPkg] as it stands: the two
    results of the source, or nothing when the fuel does not suffice. *)
Definition Convert (fuel : nat) (globalPkg : ProtoPackage)
    (req : CodeGeneratorRequest)
  : option (CodeGeneratorResponse * option error) :=
  let generateTargets := targetsOf (FileToGenerate req) in
  let res := {| Error := None; File := [] |} in
  let globalPkg := registerAll globalPkg (ProtoFile req) in
  convertRequested fuel globalPkg generateTargets (ProtoFile req) res.

(** ** Notions used to state the properties of the registry *)

(** The components that [registerType] walks: the components of the package
    path without the leading empty ones, which the loop skips at the root. *)
Fixpoint dropEmpty (nodes : list string) : list string :=
  match nodes with
  | EmptyString :: rest => dropEmpty rest
  | _ => nodes
  end.

Definition packagePath (pkgName : option string) : list string :=
  dropEmpty (match pkgName with
             | Some p => Split p
             | None => []
             end).

(** The message stored under the simple name [n] in the node reached from
    [pkg] through the child packages [comps]. *)
Fixpoint typeAt (pkg : ProtoPackage) (comps : list string) (n : string)
  : option DescriptorProto :=
  match comps with
  | [] => types pkg !! n
  | c :: rest =>
      match children pkg !! c with
      | Some child => typeAt child rest n
      | None => None
      end
  end.

(** [strings.Join(l, ".")] *)
Fixpoint joinDots (l : list string) : string :=
  match l with
  | [] => ""
  | [c] => c
  | c :: rest => c ++ "." ++ joinDots rest
  end.

(** The fully-qualified absolute reference of the message named [n] of the
    package [pkgName]: the separator, then the components of the package
    path and the simple name with a separator between them. *)
Definition absoluteRef (pkgName : option string) (n : string) : string :=
  "." ++ joinDots (packagePath pkgName ++ [n]).

(** A sequence of registrations. *)
Definition registerEach (globalPkg : ProtoPackage)
    (regs : list (option string * DescriptorProto)) : ProtoPackage :=
  fold_left (fun g r => registerType g (fst r) (snd r)) regs globalPkg.

(** The registrations of the first loop of [Convert], in order. *)
Definition registrationsOf (files : list FileDescriptorProto)
  : list (option string * DescriptorProto) :=
  flat_map (fun file => map (fun msg => (file_Package file, msg))
                            (file_MessageType file)) files.

(** Where a registration writes: the node and the simple name. *)
Definition target (r : option string * DescriptorProto)
  : list string * string :=
  (packagePath (fst r), d_Name (snd r)).

(** A package path as [registerType] expects it: no leading separator. *)
Definition plainPackage (pkgName : option string) : bool :=
  match pkgName with
  | Some p => negb (HasPrefixDot p)
  | None => true
  end.

(** The resolution of a dotted reference [A.B] within one node with a
    fallback from the child package to the type: the package [A] is tried
    with [B]; when that gives nothing, the type [A] of the node is tried. *)
Definition dottedWithFallback (pkg : ProtoPackage) (A B : string)
  : option DescriptorProto :=
  let asType :=
    match types pkg !! A with
    | Some msg => relativelyLookupNestedType msg B
    | None => None
    end in
  match children pkg !! A with
  | Some child =>
      match relativelyLookupType child B with
      | Some desc => Some desc
      | None => asType
      end
  | None => asType
  end.

(** ** Concrete descriptors and trees *)

Module Sample.

Definition plainMsg (n : string) : DescriptorProto :=
  mkDescriptorProto n [] [] None.

Definition msgM : DescriptorProto := plainMsg "M".
Definition msgN : DescriptorProto := plainMsg "N".

(** A second message named [M], told apart by its nested type. *)
Definition msgM' : DescriptorProto :=
  mkDescriptorProto "M" [] [msgN] None.

Definition innerB : DescriptorProto := plainMsg "B".
Definition outerA : DescriptorProto :=
  mkDescriptorProto "A" [] [innerB] None.

(** A root with the package [A] (holding [M]) and the message [A]. *)
Definition treeA : ProtoPackage :=
  registerType (registerType globalPkg0 (Some "A") msgM) None outerA.

(** The packages [a.b.c], [a.b] and [x], with a message in each. *)
Definition treeABC : ProtoPackage :=
  registerEach globalPkg0
    [(Some "a.b.c", msgM); (Some "a.b", msgN); (Some "x", plainMsg "X")].

(** The node of [a.b.c] with its parents, as [convertFile] obtains it. *)
Definition chainABC : PkgRef :=
  match relativelyLookupPackage [treeABC] "a.b.c" with
  | Some pkg => pkg
  | None => []
  end.

Definition nodeABC : ProtoPackage := nth 0 chainABC globalPkg0.
Definition nodeAB : ProtoPackage := nth 1 chainABC globalPkg0.

End Sample.

(** ** Notions used to state the properties of the converter *)

(** The slot of the field-level options of a field; absent also when the
    field has no options message. *)
Definition bigqueryOptions (desc : FieldDescriptorProto)
  : ext BigQueryFieldOptions :=
  match fd_Options desc with
  | Some opts => E_Bigquery opts
  | None => ExtAbsent
  end.

(** The field-level options leave the field in place as a record: there are
    none, or they decode and neither drop the field nor override its type
    with something other than [RECORD]. *)
Definition keepsRecordType (desc : FieldDescriptorProto) : bool :=
  match bigqueryOptions desc with
  | ExtAbsent => true
  | ExtValue opt =>
      negb (opt_Ignore opt)
      && (negb (nonempty (opt_TypeOverride opt))
          || String.eqb (opt_TypeOverride opt) "RECORD")
  | ExtBad _ => false
  end.

(** The kind of the field is embedded message or group. *)
Definition isMessageKind (desc : FieldDescriptorProto) : bool :=
  Z.eqb (fd_Type desc) TYPE_MESSAGE || Z.eqb (fd_Type desc) TYPE_GROUP.

(** The options blob of the message carries both annotations. *)
Definition carriesBoth (msg : DescriptorProto) : bool :=
  match d_Options msg with
  | Some options =>
      HasExtension (E_EventName options)
      && HasExtension (E_EventVersion options)
  | None => false
  end.



Definition withJsonName (desc : FieldDescriptorProto) (j : string)
  : FieldDescriptorProto :=
  {| fd_Name := fd_Name desc; fd_JsonName := j; fd_Label := fd_Label desc;
     fd_Type := fd_Type desc; fd_TypeName := fd_TypeName desc;
     fd_Options := fd_Options desc |}.

(** The name of a column before a field-level name override. *)
Definition baseName (desc : FieldDescriptorProto)
    (msgOpts : option BigQueryMessageOptions) : string :=
  if GetUseJsonNames msgOpts && nonempty (fd_JsonName desc)
  then fd_JsonName desc else fd_Name desc.

(** ** Concrete fields, messages and requests *)

Module SampleFields.

Definition scalar (n : string) (kind : Z) : FieldDescriptorProto :=
  {| fd_Name := n; fd_JsonName := ""; fd_Label := LABEL_OPTIONAL;
     fd_Type := kind; fd_TypeName := ""; fd_Options := None |}.

Definition record (n ref : string) : FieldDescriptorProto :=
  {| fd_Name := n; fd_JsonName := ""; fd_Label := LABEL_OPTIONAL;
     fd_Type := TYPE_MESSAGE; fd_TypeName := ref; fd_Options := None |}.

Definition withOptions (d : FieldDescriptorProto) (o : BigQueryFieldOptions)
  : FieldDescriptorProto :=
  {| fd_Name := fd_Name d; fd_JsonName := fd_JsonName d;
     fd_Label := fd_Label d; fd_Type := fd_Type d;
     fd_TypeName := fd_TypeName d;
     fd_Options := Some {| E_Bigquery := ExtValue o |} |}.

Definition noOverride : BigQueryFieldOptions :=
  {| opt_Require := false; opt_TypeOverride := ""; opt_Name := "";
     opt_Description := ""; opt_Ignore := false |}.

Definition dropIt : BigQueryFieldOptions :=
  {| opt_Require := false; opt_TypeOverride := ""; opt_Name := "";
     opt_Description := ""; opt_Ignore := true |}.

Definition overrides : BigQueryFieldOptions :=
  {| opt_Require := true; opt_TypeOverride := "DATE"; opt_Name := "day";
     opt_Description := "the day"; opt_Ignore := false |}.

(** A message field whose reference no registered message answers. *)
Definition unresolved : FieldDescriptorProto := record "payload" ".nope".

Definition stamp : FieldDescriptorProto :=
  record "at" ".google.protobuf.Timestamp".

(** A repeated string field with every override set. *)
Definition overridden : FieldDescriptorProto :=
  withOptions
    {| fd_Name := "d"; fd_JsonName := "dJson"; fd_Label := LABEL_REPEATED;
       fd_Type := TYPE_STRING; fd_TypeName := ""; fd_Options := None |}
    overrides.

Definition useJson : option BigQueryMessageOptions :=
  Some {| TableName := "t_v1"; UseJsonNames := true |}.

End SampleFields.

Module SampleMessages.
Import SampleFields.

Definition annotated (n : string) (v : Z) : option MessageOptions :=
  Some {| E_EventName := ExtValue n; E_EventVersion := ExtValue v |}.

(** The message of the table-name example: event [purchase], version 2. *)
Definition purchase : DescriptorProto :=
  mkDescriptorProto "Purchase" [scalar "id" TYPE_STRING] []
                    (annotated "purchase" 2).


(** The event name is carried and does not decode. *)
Definition garbled : DescriptorProto :=
  mkDescriptorProto "Garbled" [scalar "id" TYPE_STRING] []
    (Some {| E_EventName := ExtBad "proto: bad wiretype";
             E_EventVersion := ExtValue 3%Z |}).

(** An annotated message with a field whose label is not a label. *)
Definition broken : DescriptorProto :=
  mkDescriptorProto "Broken"
    [{| fd_Name := "x"; fd_JsonName := ""; fd_Label := 7;
        fd_Type := TYPE_STRING; fd_TypeName := ""; fd_Options := None |}]
    [] (annotated "broken" 1).

(** A message all of whose fields are dropped, a message that holds only
    a field of that type, and a message with a field of the latter. *)
Definition leaf : DescriptorProto :=
  mkDescriptorProto "Leaf"
    [withOptions (scalar "secret" TYPE_STRING) dropIt] [] None.
Definition mid : DescriptorProto :=
  mkDescriptorProto "Mid" [record "leaf" ".p.Leaf"] [] None.
Definition top : DescriptorProto :=
  mkDescriptorProto "Top"
    [scalar "id" TYPE_INT64; record "mid" ".p.Mid"] [] (annotated "top" 1).

(** A message without annotations whose field has an alternate name, and
    a field that refers to it. *)
Definition inner : DescriptorProto :=
  mkDescriptorProto "Inner"
    [{| fd_Name := "user_id"; fd_JsonName := "userId";
        fd_Label := LABEL_OPTIONAL; fd_Type := TYPE_INT64;
        fd_TypeName := ""; fd_Options := None |}] [] None.
Definition innerField : FieldDescriptorProto :=
  {| fd_Name := "inner_msg"; fd_JsonName := "innerMsg";
     fd_Label := LABEL_OPTIONAL; fd_Type := TYPE_MESSAGE;
     fd_TypeName := ".p.Inner"; fd_Options := None |}.

Definition treeP : ProtoPackage :=
  registerEach globalPkg0
    [(Some "p", leaf); (Some "p", mid); (Some "p", top); (Some "p", inner)].

Definition goodFile : FileDescriptorProto :=
  {| file_Name := "shop/events.proto"; file_Package := Some "shop.events";
     file_MessageType := [purchase] |}.
Definition badFile : FileDescriptorProto :=
  {| file_Name := "bad.proto"; file_Package := Some "bad";
     file_MessageType := [broken] |}.

(** Both files are requested; the second one does not convert. *)
Definition request : CodeGeneratorRequest :=
  {| FileToGenerate := ["shop/events.proto"; "bad.proto"];
     ProtoFile := [goodFile; badFile] |}.


End SampleMessages.

(** ** Further notions for the registry and the driver *)

(** The node reached from [pkg] through the child packages [comps]. *)
Fixpoint nodeAt (pkg : ProtoPackage) (comps : list string)
  : option ProtoPackage :=
  match comps with
  | [] => Some pkg
  | c :: rest =>
      match children pkg !! c with
      | Some child => nodeAt child rest
      | None => None
      end
  end.

(** Every message of the tree is stored under its own simple name. *)
Definition keyed (pkg : ProtoPackage) : Prop :=
  forall (comps : list string) (n : string) (m : DescriptorProto),
    typeAt pkg comps n = Some m -> d_Name m = n.

(** The last dotted segment of a reference. *)
Definition lastSegment (nm : string) : string := List.last (Split nm) "".


(** The path of the artifact of a table of a file. *)
Definition artifactName (file : FileDescriptorProto) (tableName : string)
  : string :=
  ReplaceDotSlash (GetPackage file) ++ "/" ++ tableName ++ ".schema".

(** The files of the request whose name is among the files to generate. *)
Definition requestedFiles (req : CodeGeneratorRequest)
  : list FileDescriptorProto :=
  List.filter (fun f => existsb (String.eqb (file_Name f)) (FileToGenerate req))
              (ProtoFile req).

(** A column as the converter makes them, at every depth: its mode is one of
    the three modes, and it has nested columns exactly when its type is
    [RECORD]. *)
Inductive columnOk : Field -> Prop :=
| columnOk_intro (f : Field) :
    (Mode f = "NULLABLE" \/ Mode f = "REQUIRED" \/ Mode f = "REPEATED") ->
    (Type_ f = "RECORD" <-> Fields f <> []) ->
    Forall columnOk (Fields f) ->
    columnOk f.

(** A message that refers to itself, and a tree that holds it. *)
Module SampleCycle.

Definition node : DescriptorProto :=
  mkDescriptorProto "Node"
    [SampleFields.scalar "id" TYPE_INT64; SampleFields.record "next" ".p.Node"]
    [] (SampleMessages.annotated "node" 1).

Definition tree : ProtoPackage := registerType globalPkg0 (Some "p") node.

Definition file : FileDescriptorProto :=
  {| file_Name := "node.proto"; file_Package := Some "p";
     file_MessageType := [node] |}.

(** The node of the package [p] with its parent. *)
Definition chain : PkgRef :=
  match relativelyLookupPackage [tree] "p" with
  | Some pkg => pkg
  | None => []
  end.

End SampleCycle.


(** A file without a package that declares an annotated message, and a
    message whose event version does not decode. *)
Module SampleEdge.

Definition noPackage : FileDescriptorProto :=
  {| file_Name := "plain.proto"; file_Package := None;
     file_MessageType := [SampleMessages.purchase] |}.


(** A request for a name that no file bears, with a file that is not
    requested and would not convert. *)
Definition strayRequest : CodeGeneratorRequest :=
  {| FileToGenerate := ["absent.proto"];
     ProtoFile := [SampleMessages.badFile] |}.

End SampleEdge.

(** ** Facts about the string functions *)

Section StringFacts.

Lemma cut_dotfree (s : string) : dotfree s = true -> cut s = (s, None).
Proof.
  induction s as [|c r IH]; simpl; [reflexivity|].
  destruct (Ascii.eqb c sep); simpl; [discriminate|].
  intros H. rewrite (IH H). reflexivity.
Qed.

Lemma cut_None_dotfree (s h : string) :
  cut s = (h, None) -> h = s /\ dotfree s = true.
Proof.
  revert h. induction s as [|c r IH]; intros h; simpl.
  - intros H. inversion H. auto.
  - destruct (Ascii.eqb c sep); simpl; [discriminate|].
    destruct (cut r) as [h' t'] eqn:E. intros H. inversion H; subst.
    destruct (IH _ eq_refl) as [-> ->]. auto.
Qed.

Lemma cut_Some_dotfree (s h t : string) :
  cut s = (h, Some t) -> dotfree h = true /\ s = h ++ String sep t.
Proof.
  revert h. induction s as [|c r IH]; intros h; simpl.
  - discriminate.
  - destruct (Ascii.eqb_spec c sep) as [->|Hc].
    + intros H. inversion H; subst. auto.
    + destruct (cut r) as [h' t'] eqn:E. intros H. inversion H; subst.
      destruct (IH _ eq_refl) as [Hd ->]. simpl.
      destruct (Ascii.eqb_spec c sep); [contradiction|]. auto.
Qed.

Lemma cut_app_sep (h t : string) :
  dotfree h = true -> cut (h ++ String sep t) = (h, Some t).
Proof.
  induction h as [|c r IH]; simpl.
  - intros _. reflexivity.
  - destruct (Ascii.eqb c sep); simpl; [discriminate|].
    intros H. rewrite (IH H). reflexivity.
Qed.

Lemma SplitN2_dotfree (s : string) : dotfree s = true -> SplitN2 s = [s].
Proof. intros H. unfold SplitN2. rewrite (cut_dotfree s H). reflexivity. Qed.

Lemma SplitN2_app_sep (h t : string) :
  dotfree h = true -> SplitN2 (h ++ String sep t) = [h; t].
Proof. intros H. unfold SplitN2. rewrite (cut_app_sep h t H). reflexivity. Qed.

Lemma SplitN2_length (s : string) :
  length (SplitN2 s) = 1 \/ length (SplitN2 s) = 2.
Proof. unfold SplitN2. destruct (cut s) as [h [t|]]; simpl; auto. Qed.

Lemma Split_nonnil (s : string) : Split s <> [].
Proof.
  induction s as [|c r IH]; simpl; [discriminate|].
  destruct (Ascii.eqb c sep); [discriminate|].
  destruct (Split r); [contradiction|discriminate].
Qed.

Lemma Split_cut (s : string) :
  Split s = match cut s with
            | (h, None) => [h]
            | (h, Some t) => h :: Split t
            end.
Proof.
  induction s as [|c r IH]; simpl; [reflexivity|].
  destruct (Ascii.eqb c sep); [reflexivity|].
  rewrite IH. destruct (cut r) as [h [t|]]; reflexivity.
Qed.

Lemma Split_dotfree (s : string) : dotfree s = true -> Split s = [s].
Proof. intros H. rewrite Split_cut, (cut_dotfree s H). reflexivity. Qed.

Lemma Split_app_sep (h t : string) :
  dotfree h = true -> Split (h ++ String sep t) = h :: Split t.
Proof. intros H. rewrite Split_cut, (cut_app_sep h t H). reflexivity. Qed.

Lemma Split_head_nonempty (s : string) :
  HasPrefixDot s = false -> nonempty s = true ->
  exists h t, Split s = h :: t /\ h <> "".
Proof.
  destruct s as [|c r]; simpl; [discriminate|].
  intros Hc _. rewrite Hc.
  destruct (Split r) as [|h t]; eexists _, _; split; eauto; discriminate.
Qed.

End StringFacts.

(** ** The registry *)

Section Registry.

Lemma relativelyLookupType_eq (pkg : ProtoPackage) (nm : string) :
  relativelyLookupType pkg nm =
  match SplitN2 nm with
  | [c0] => types pkg !! c0
  | [c0; c1] =>
      match children pkg !! c0 with
      | Some child => relativelyLookupType child c1
      | None =>
          match types pkg !! c0 with
          | Some msg => relativelyLookupNestedType msg c1
          | None => None
          end
      end
  | _ => None
  end.
Proof.
  unfold relativelyLookupType at 1. rewrite Subterm.FixWf_unfold.
  - cbn [pr1 pr2]. unfold relativelyLookupType_functional.
    assert (G : forall l (e : SplitN2 nm = l),
      relativelyLookupType_clause_1 pkg nm (exist _ l e)
        (fun a0 b0 (_ : String.length b0 < String.length nm) =>
           relativelyLookupType a0 b0) =
      match l with
      | [c0] => types pkg !! c0
      | [c0; c1] =>
          match children pkg !! c0 with
          | Some child => relativelyLookupType child c1
          | None =>
              match types pkg !! c0 with
              | Some msg => relativelyLookupNestedType msg c1
              | None => None
              end
          end
      | _ => None
      end).
    { intros l e. destruct l as [|c0 [|c1 [|c2 l]]]; reflexivity. }
    apply G.
  - intros [p n] f g Hfg. cbn [pr1 pr2].
    unfold relativelyLookupType_functional.
    destruct (Logic.inspect (SplitN2 n)) as [l e].
    destruct l as [|c0 [|c1 [|c2 l]]]; cbn; try reflexivity.
    destruct (children p !! c0); [apply Hfg|reflexivity].
Qed.

Lemma registerAt_root (pkg : ProtoPackage) (nodes : list string)
    (msg : DescriptorProto) :
  registerAt true pkg nodes msg = registerAt false pkg (dropEmpty nodes) msg.
Proof.
  induction nodes as [|node rest IH]; [reflexivity|].
  destruct node as [|c r]; simpl; [exact IH | reflexivity].
Qed.

Lemma registerType_path (g : ProtoPackage) (pkgName : option string)
    (msg : DescriptorProto) :
  registerType g pkgName msg = registerAt false g (packagePath pkgName) msg.
Proof. unfold registerType, packagePath. apply registerAt_root. Qed.

Lemma typeAt_newChild (pkg : ProtoPackage) (node : string)
    (comps : list string) (n : string) :
  typeAt (newChild pkg node) comps n = None.
Proof. destruct comps; simpl; rewrite lookup_empty; reflexivity. Qed.

Lemma typeAt_registerAt_same (comps : list string) (pkg : ProtoPackage)
    (msg : DescriptorProto) :
  typeAt (registerAt false pkg comps msg) comps (d_Name msg) = Some msg.
Proof.
  revert pkg. induction comps as [|c rest IH]; intros pkg; simpl.
  - apply lookup_insert_eq.
  - rewrite lookup_insert_eq. apply IH.
Qed.

Lemma typeAt_registerAt_other (comps' : list string) :
  forall (pkg : ProtoPackage) (msg' : DescriptorProto)
         (comps : list string) (n : string),
    (comps', d_Name msg') <> (comps, n) ->
    typeAt (registerAt false pkg comps' msg') comps n = typeAt pkg comps n.
Proof.
  induction comps' as [|c' rest' IH]; intros pkg msg' comps n Hne.
  - destruct comps as [|c rest]; simpl; [|reflexivity].
    apply lookup_insert_ne. congruence.
  - destruct comps as [|c rest]; simpl; [reflexivity|].
    destruct (decide (c' = c)) as [->|Hc].
    + rewrite lookup_insert_eq.
      rewrite IH by congruence.
      destruct (children pkg !! c); [reflexivity|apply typeAt_newChild].
    + rewrite lookup_insert_ne by exact Hc. reflexivity.
Qed.

Lemma typeAt_registerEach (regs : list (option string * DescriptorProto)) :
  forall (g : ProtoPackage) (comps : list string) (n : string),
    Forall (fun r => target r <> (comps, n)) regs ->
    typeAt (registerEach g regs) comps n = typeAt g comps n.
Proof.
  induction regs as [|r regs IH]; intros g comps n H; [reflexivity|].
  inversion H; subst. unfold registerEach in *. simpl.
  rewrite IH by assumption.
  rewrite registerType_path. apply typeAt_registerAt_other. assumption.
Qed.

(** The first loop of [Convert] is a sequence of registrations. *)
Lemma registerAll_registerEach (files : list FileDescriptorProto) :
  forall g : ProtoPackage,
    registerAll g files = registerEach g (registrationsOf files).
Proof.
  unfold registerAll, registerEach, registrationsOf.
  induction files as [|file files IH]; intros g; [reflexivity|].
  cbn [fold_left flat_map]. rewrite fold_left_app, <- IH. f_equal.
  unfold registerFile. generalize g.
  induction (file_MessageType file) as [|m ms IHm]; intros g0;
    [reflexivity|].
  cbn [fold_left map fst snd]. apply IHm.
Qed.

Lemma joinDots_cons (c : string) (rest : list string) :
  rest <> [] -> joinDots (c :: rest) = c ++ String sep (joinDots rest).
Proof. destruct rest; [contradiction|reflexivity]. Qed.

Lemma joinDots_snoc (l : list string) (n : string) :
  l <> [] -> joinDots (l ++ [n]) = joinDots l ++ String sep n.
Proof.
  induction l as [|c l IH]; [contradiction|]. intros _.
  destruct l as [|c' l]; [reflexivity|].
  change (c ++ String sep (joinDots ((c' :: l) ++ [n])) =
          (c ++ String sep (joinDots (c' :: l))) ++ String sep n).
  rewrite IH by discriminate.
  generalize (joinDots (c' :: l)). intros t. clear.
  induction c as [|x c IHc]; [reflexivity|].
  change (String x (c ++ String sep (t ++ String sep n)) =
          String x ((c ++ String sep t) ++ String sep n)).
  f_equal. exact IHc.
Qed.

Lemma joinDots_Split (s : string) : joinDots (Split s) = s.
Proof.
  induction s as [|c r IH]; [reflexivity|]. simpl.
  destruct (Ascii.eqb_spec c sep) as [->|Hc].
  - rewrite joinDots_cons by apply Split_nonnil. rewrite IH. reflexivity.
  - destruct (Split r) as [|h t] eqn:E; [destruct (Split_nonnil r E)|].
    destruct t as [|h' t]; simpl in *; rewrite <- IH; reflexivity.
Qed.

Lemma Split_components_dotfree (s : string) :
  Forall (fun c => dotfree c = true) (Split s).
Proof.
  induction s as [|c r IH]; simpl; [repeat constructor|].
  destruct (Ascii.eqb c sep) eqn:Hc; [constructor; [reflexivity|exact IH]|].
  destruct (Split r) as [|h t]; [repeat constructor; simpl; rewrite Hc; auto|].
  inversion IH; subst. constructor; [|assumption].
  simpl. rewrite Hc. assumption.
Qed.

Lemma dropEmpty_Forall (P : string -> Prop) (l : list string) :
  Forall P l -> Forall P (dropEmpty l).
Proof.
  induction 1 as [|c l Hc Hl IH]; simpl; [constructor|].
  destruct c; [exact IH|constructor; assumption].
Qed.

Lemma packagePath_dotfree (pkgName : option string) :
  Forall (fun c => dotfree c = true) (packagePath pkgName).
Proof.
  unfold packagePath. apply dropEmpty_Forall.
  destruct pkgName; [apply Split_components_dotfree|constructor].
Qed.

(** A stored message is what the lookup of its dotted path gives. *)
Lemma relativelyLookupType_typeAt (comps : list string) :
  forall (pkg : ProtoPackage) (n : string) (m : DescriptorProto),
    Forall (fun c => dotfree c = true) comps -> dotfree n = true ->
    typeAt pkg comps n = Some m ->
    relativelyLookupType pkg (joinDots (comps ++ [n])) = Some m.
Proof.
  induction comps as [|c rest IH]; intros pkg n m Hc Hn Ht.
  - simpl. rewrite relativelyLookupType_eq, (SplitN2_dotfree _ Hn). exact Ht.
  - inversion Hc; subst. simpl in Ht.
    destruct (children pkg !! c) as [child|] eqn:Hch; [|discriminate].
    change ((c :: rest) ++ [n])%list with (c :: (rest ++ [n]))%list.
    rewrite joinDots_cons by (destruct rest; discriminate).
    rewrite relativelyLookupType_eq, SplitN2_app_sep, Hch by assumption.
    apply IH; assumption.
Qed.

End Registry.

(** ** Resolution of references *)

Section Resolution.

Lemma absoluteRef_lookup (g : ProtoPackage) (cur : PkgRef)
    (pkgName : option string) (n : string) :
  lookupType g cur (absoluteRef pkgName n) =
  relativelyLookupType g (joinDots (packagePath pkgName ++ [n])).
Proof. reflexivity. Qed.

Lemma packagePath_plain (p : string) :
  HasPrefixDot p = false -> nonempty p = true ->
  packagePath (Some p) = Split p.
Proof.
  intros H1 H2. unfold packagePath.
  destruct (Split_head_nonempty p H1 H2) as (h & t & -> & Hh).
  destruct h; [contradiction|reflexivity].
Qed.

(** The reference spelled out: for a package path without a leading
    separator it is the separator, the path, the separator and the name. *)
Lemma absoluteRef_plain (pkgName : option string) (n : string) :
  plainPackage pkgName = true ->
  absoluteRef pkgName n =
  match pkgName with
  | Some p => if nonempty p then "." ++ p ++ "." ++ n else "." ++ n
  | None => "." ++ n
  end.
Proof.
  unfold plainPackage, absoluteRef. destruct pkgName as [p|]; [|reflexivity].
  intros Hp. apply negb_true_iff in Hp.
  destruct (nonempty p) eqn:Hne.
  - rewrite (packagePath_plain p Hp Hne).
    rewrite joinDots_snoc by apply Split_nonnil.
    rewrite joinDots_Split. reflexivity.
  - destruct p; [reflexivity|discriminate].
Qed.

Lemma absolute_lookup_after_registrations
    (g : ProtoPackage) (pkgName : option string) (msg : DescriptorProto)
    (later : list (option string * DescriptorProto)) (cur : PkgRef) :
  dotfree (d_Name msg) = true ->
  Forall (fun r => target r <> target (pkgName, msg)) later ->
  lookupType (registerEach (registerType g pkgName msg) later) cur
             (absoluteRef pkgName (d_Name msg)) = Some msg.
Proof.
  intros Hn Hlater. rewrite absoluteRef_lookup.
  apply relativelyLookupType_typeAt; [apply packagePath_dotfree|exact Hn|].
  rewrite typeAt_registerEach by exact Hlater.
  rewrite registerType_path. apply typeAt_registerAt_same.
Qed.

(** C3. A message registered under a package path is what its own
    fully-qualified absolute reference (the separator, the package path and
    the simple name, which as a simple name has no separator in it) resolves
    to, from any current node: right after its registration, after any
    further registrations that do not write the same name in the same node,
    and so in the tree that the first loop of [Convert] builds from the files
    of a request. For a package path without a leading separator the
    reference is the separator, the path, the separator and the name. *)
Theorem registration_absolute_lookup_roundtrip
    (g : ProtoPackage) (pkgName : option string) (msg : DescriptorProto)
    (later : list (option string * DescriptorProto)) (cur : PkgRef) :
  dotfree (d_Name msg) = true ->
  Forall (fun r => target r <> target (pkgName, msg)) later ->
  lookupType (registerType g pkgName msg) cur
             (absoluteRef pkgName (d_Name msg)) = Some msg
  /\ lookupType (registerEach (registerType g pkgName msg) later) cur
                (absoluteRef pkgName (d_Name msg)) = Some msg
  /\ (forall (files : list FileDescriptorProto)
             (earlier : list (option string * DescriptorProto)),
        registrationsOf files = (earlier ++ (pkgName, msg) :: later)%list ->
        lookupType (registerAll g files) cur
                   (absoluteRef pkgName (d_Name msg)) = Some msg)
  /\ (plainPackage pkgName = true ->
      absoluteRef pkgName (d_Name msg) =
      match pkgName with
      | Some p => if nonempty p then "." ++ p ++ "." ++ d_Name msg
                  else "." ++ d_Name msg
      | None => "." ++ d_Name msg
      end).
Proof.
  intros Hn Hlater. split; [|split; [|split]].
  - apply (absolute_lookup_after_registrations g pkgName msg [] cur Hn).
    constructor.
  - apply absolute_lookup_after_registrations; assumption.
  - intros files earlier Hregs.
    rewrite registerAll_registerEach, Hregs.
    unfold registerEach. rewrite fold_left_app. cbn [fold_left fst snd].
    apply (absolute_lookup_after_registrations
             (registerEach g earlier) pkgName msg later cur Hn Hlater).
  - apply absoluteRef_plain.
Qed.

Lemma registration_absolute_lookup_roundtrip_witness :
  lookupType
    (registerEach (registerType globalPkg0 (Some "a.b") Sample.msgM)
                  [(Some "a.b", Sample.msgN); (Some "a", Sample.msgM')])
    [] ".a.b.M" = Some Sample.msgM.
Proof.
  destruct (registration_absolute_lookup_roundtrip globalPkg0 (Some "a.b")
              Sample.msgM
              [(Some "a.b", Sample.msgN); (Some "a", Sample.msgM')] [])
    as (_ & H & _).
  - reflexivity.
  - repeat constructor; vm_compute; discriminate.
  - exact H.
Defined.

(** Last write wins: a later message of the same name in the same package
    takes the place of the earlier one. *)
Example later_registration_replaces :
  lookupType
    (registerEach globalPkg0 [(Some "a", Sample.msgM); (Some "a", Sample.msgM')])
    [] ".a.M" = Some Sample.msgM'.
Proof. vm_compute. reflexivity. Qed.

Lemma lookupUp_first (nm : string) (before : list ProtoPackage) :
  forall (node : ProtoPackage) (after : list ProtoPackage)
         (desc : DescriptorProto),
    Forall (fun p => relativelyLookupType p nm = None) before ->
    relativelyLookupType node nm = Some desc ->
    lookupUp ((before ++ node :: after)%list) nm = Some desc.
Proof.
  induction before as [|p before IH]; intros node after desc Hb Hn; simpl.
  - rewrite Hn. reflexivity.
  - inversion Hb; subst.
    match goal with H : relativelyLookupType p nm = None |- _ => rewrite H end.
    apply IH; assumption.
Qed.

Lemma lookupUp_none (nm : string) (cur : PkgRef) :
  Forall (fun p => relativelyLookupType p nm = None) cur ->
  lookupUp cur nm = None.
Proof.
  induction 1 as [|p cur Hp _ IH]; simpl; [reflexivity|].
  rewrite Hp. exact IH.
Qed.

(** C4. A reference without a leading separator resolves in the nearest
    node of the chain from the current node up to the root in which it
    resolves, the current node being tried first; when no node of the chain
    resolves it the result is "not found". A reference with a leading
    separator is resolved at the global root only, whatever the current node.
    The lookup within a node always sees one or two components, so that the
    branch of the source that ends the program is never taken. *)
Theorem lookupType_scoping (g : ProtoPackage) (nm : string) :
  (HasPrefixDot nm = false ->
     (forall (before after : list ProtoPackage) (node : ProtoPackage)
             (desc : DescriptorProto),
         Forall (fun p => relativelyLookupType p nm = None) before ->
         relativelyLookupType node nm = Some desc ->
         lookupType g ((before ++ node :: after)%list) nm = Some desc)
     /\ (forall cur : PkgRef,
           Forall (fun p => relativelyLookupType p nm = None) cur ->
           lookupType g cur nm = None))
  /\ (forall cur : PkgRef,
        lookupType g cur (String sep nm) = relativelyLookupType g nm)
  /\ (length (SplitN2 nm) = 1 \/ length (SplitN2 nm) = 2).
Proof.
  split; [|split].
  - intros Hrel. unfold lookupType. rewrite Hrel. split.
    + intros before after node desc. apply lookupUp_first.
    + apply lookupUp_none.
  - intros cur. reflexivity.
  - apply SplitN2_length.
Qed.

Lemma lookupType_scoping_witness :
  lookupType Sample.treeABC Sample.chainABC "N" = Some Sample.msgN
  /\ lookupType Sample.treeABC Sample.chainABC "X" = None.
Proof.
  split.
  - destruct (lookupType_scoping Sample.treeABC "N") as ((H & _) & _);
      [reflexivity|].
    apply (H [Sample.nodeABC] [Sample.treeABC] Sample.nodeAB Sample.msgN).
    + repeat constructor.
    + vm_compute. reflexivity.
  - destruct (lookupType_scoping Sample.treeABC "X") as ((_ & H) & _);
      [reflexivity|].
    apply (H Sample.chainABC). repeat constructor.
Defined.

(** The three relative lookups of the design's list of properties, from the
    package [a.b.c]: a type of [a.b], a type of [a.b.c], a type of [x]. *)
Example relative_lookup_from_abc :
  lookupType Sample.treeABC Sample.chainABC "N" = Some Sample.msgN
  /\ lookupType Sample.treeABC Sample.chainABC "M" = Some Sample.msgM
  /\ lookupType Sample.treeABC Sample.chainABC "X" = None
  /\ lookupType Sample.treeABC Sample.chainABC ".x.X"
     = Some (Sample.plainMsg "X").
Proof. repeat split; vm_compute; reflexivity. Qed.

(** C5, as the code has it. Within one node, a reference without a
    separator is looked up in the type mapping of the node only. A reference
    [A.B] is resolved in the child package [A] when the node has one, and the
    result is then that of [B] there, found or not; only a node without a
    child package [A] tries [A] as one of its types and walks the nested
    types of that message, one segment at a time by exact name, failing when
    a segment has no match. *)
Theorem relativelyLookupType_within_node (pkg : ProtoPackage) (A B : string)
    (desc : DescriptorProto) :
  dotfree A = true ->
  relativelyLookupType pkg A = types pkg !! A
  /\ relativelyLookupType pkg (A ++ String sep B) =
     match children pkg !! A with
     | Some child => relativelyLookupType child B
     | None =>
         match types pkg !! A with
         | Some msg => relativelyLookupNestedType msg B
         | None => None
         end
     end
  /\ relativelyLookupNestedType desc A =
     List.find (fun nested => String.eqb (d_Name nested) A)
               (d_NestedType desc)
  /\ relativelyLookupNestedType desc (A ++ String sep B) =
     match List.find (fun nested => String.eqb (d_Name nested) A)
                     (d_NestedType desc) with
     | Some nested => relativelyLookupNestedType nested B
     | None => None
     end.
Proof.
  intros HA. repeat split.
  - rewrite relativelyLookupType_eq, (SplitN2_dotfree _ HA). reflexivity.
  - rewrite relativelyLookupType_eq, (SplitN2_app_sep _ _ HA). reflexivity.
  - unfold relativelyLookupNestedType. rewrite (Split_dotfree _ HA). simpl.
    destruct (List.find _ _); reflexivity.
  - unfold relativelyLookupNestedType. rewrite (Split_app_sep _ _ HA).
    reflexivity.
Qed.

Lemma relativelyLookupType_within_node_witness :
  relativelyLookupType Sample.treeA "A.B" = None
  /\ relativelyLookupNestedType Sample.outerA "B" = Some Sample.innerB.
Proof.
  destruct (relativelyLookupType_within_node Sample.treeA "A" "B"
              Sample.outerA eq_refl) as (_ & H2 & H3 & _).
  split.
  - etransitivity; [exact H2|]. vm_compute. reflexivity.
  - destruct (relativelyLookupType_within_node Sample.treeA "B" ""
                Sample.outerA eq_refl) as (_ & _ & H3' & _).
    etransitivity; [exact H3'|]. vm_compute. reflexivity.
Defined.

(** C5, counterexample. The root has both a child package [A] and a message
    [A] with the nested type [B]. The lookup of [A.B] ends in the package,
    which has no [B]; the type [A], whose nested [B] a fallback would find,
    is not tried. *)
Lemma relativelyLookupType_no_fallback :
  relativelyLookupType Sample.treeA "A.B" = None
  /\ dottedWithFallback Sample.treeA "A" "B" = Some Sample.innerB.
Proof. split; vm_compute; reflexivity. Qed.

End Resolution.

(** ** The conversion of one field *)

Section FieldConversion.

Lemma convertField_eq (fuel : nat) (g : ProtoPackage) (cur : PkgRef)
    (desc : FieldDescriptorProto) (mo : option BigQueryMessageOptions) :
  convertField fuel g cur desc mo =
  match columnHead desc mo with
  | Err err => Err err
  | NoFuel => NoFuel
  | Ok None => Ok None
  | Ok (Some field) =>
      if negb (String.eqb (Type_ field) "RECORD") then Ok (Some field)
      else
        match typeFromWKT !! fd_TypeName desc with
        | Some t => Ok (Some (setType field t))
        | None =>
            match lookupType g cur (fd_TypeName desc) with
            | None => Err ("no such message type named " ++ fd_TypeName desc)
            | Some recordType =>
                match getBigqueryMessageOptions recordType with
                | Err err => Err err
                | NoFuel => NoFuel
                | Ok fieldMsgOpts =>
                    match fuel with
                    | O => NoFuel
                    | S fuel' =>
                        match convertMessageType fuel' g cur recordType
                                fieldMsgOpts with
                        | Err err => Err err
                        | NoFuel => NoFuel
                        | Ok [] => Ok None
                        | Ok (f :: fs) => Ok (Some (setFields field (f :: fs)))
                        end
                    end
                end
            end
        end
  end.
Proof.
  destruct fuel; [reflexivity|].
  unfold convertMessageType. cbn [convertField].
  destruct (columnHead desc mo) as [[field|]| |]; try reflexivity.
  destruct (negb (String.eqb (Type_ field) "RECORD")); try reflexivity.
  destruct (typeFromWKT !! fd_TypeName desc); try reflexivity.
  destruct (lookupType g cur (fd_TypeName desc)); try reflexivity.
  destruct (getBigqueryMessageOptions d); try reflexivity.
  destruct (convertFields _ _ _) as [[|f fs]| |]; reflexivity.
Qed.

Lemma columnHead_no_options (desc : FieldDescriptorProto)
    (mo : option BigQueryMessageOptions) (mode ty : string) :
  modeFromFieldLabel !! fd_Label desc = Some mode ->
  typeFromFieldType !! fd_Type desc = Some ty ->
  bigqueryOptions desc = ExtAbsent ->
  columnHead desc mo = Ok (Some (mkField (baseName desc mo) ty mode "" [])).
Proof.
  intros Hm Ht Ho. unfold columnHead, bigqueryOptions, baseName in *.
  rewrite Hm, Ht.
  destruct (fd_Options desc) as [opts|]; [rewrite Ho; simpl|];
    destruct (GetUseJsonNames mo && nonempty (fd_JsonName desc));
    reflexivity.
Qed.

Lemma columnHead_options (desc : FieldDescriptorProto)
    (mo : option BigQueryMessageOptions) (mode ty : string)
    (opt : BigQueryFieldOptions) :
  modeFromFieldLabel !! fd_Label desc = Some mode ->
  typeFromFieldType !! fd_Type desc = Some ty ->
  bigqueryOptions desc = ExtValue opt ->
  columnHead desc mo =
  if opt_Ignore opt then Ok None
  else Ok (Some (mkField
                   (if nonempty (opt_Name opt) then opt_Name opt
                    else baseName desc mo)
                   (if nonempty (opt_TypeOverride opt)
                    then opt_TypeOverride opt else ty)
                   (if opt_Require opt then "REQUIRED" else mode)
                   (opt_Description opt) [])).
Proof.
  intros Hm Ht Ho. unfold columnHead, bigqueryOptions, baseName in *.
  rewrite Hm, Ht.
  destruct (fd_Options desc) as [opts|]; [|inversion Ho].
  rewrite Ho. simpl.
  destruct (opt_Ignore opt); [reflexivity|].
  destruct (GetUseJsonNames mo && nonempty (fd_JsonName desc)),
    (opt_Require opt), (opt_TypeOverride opt), (opt_Name opt),
    (opt_Description opt); reflexivity.
Qed.

Lemma columnHead_Fields (desc : FieldDescriptorProto)
    (mo : option BigQueryMessageOptions) (f : Field) :
  columnHead desc mo = Ok (Some f) -> Fields f = [].
Proof.
  unfold columnHead. intros H.
  repeat case_match; try discriminate; inversion H; reflexivity.
Qed.

Lemma typeFromWKT_not_RECORD (k t : string) :
  typeFromWKT !! k = Some t -> t <> "RECORD".
Proof.
  intros H. apply (elem_of_list_to_map_2 (M := gmap string)) in H.
  cbn in H. repeat (apply elem_of_cons in H; destruct H as [H|H];
    [inversion H; discriminate|]).
  inversion H.
Qed.

Lemma convertFields_skip (cf : FieldDescriptorProto -> result (option Field))
    (d : FieldDescriptorProto) (pre post : list FieldDescriptorProto) :
  cf d = Ok None ->
  forall acc : list Field,
    convertFields cf (pre ++ d :: post) acc = convertFields cf (pre ++ post) acc.
Proof.
  intros Hd. induction pre as [|x pre IH]; intros acc; simpl.
  - rewrite Hd. reflexivity.
  - destruct (cf x) as [[f|]| |]; auto.
Qed.

Lemma convertFields_all_dropped
    (cf : FieldDescriptorProto -> result (option Field))
    (l : list FieldDescriptorProto) (acc : list Field) :
  Forall (fun d => cf d = Ok None) l -> convertFields cf l acc = Ok acc.
Proof.
  induction 1 as [|d l Hd _ IH]; simpl; [reflexivity|].
  rewrite Hd. exact IH.
Qed.

Lemma convertFields_ext (cf cf' : FieldDescriptorProto -> result (option Field))
    (l : list FieldDescriptorProto) :
  (forall d, cf d = cf' d) ->
  forall acc : list Field, convertFields cf l acc = convertFields cf' l acc.
Proof.
  intros H. induction l as [|d l IH]; intros acc; simpl; [reflexivity|].
  rewrite H. destruct (cf' d) as [[f|]| |]; auto.
Qed.

(** What the treatment of a record leaves of the column of [columnHead]. *)
Lemma convertField_from_head (fuel : nat) (g : ProtoPackage) (cur : PkgRef)
    (d : FieldDescriptorProto) (mo : option BigQueryMessageOptions)
    (f : Field) :
  convertField fuel g cur d mo = Ok (Some f) ->
  exists f1 : Field,
    columnHead d mo = Ok (Some f1)
    /\ Name f = Name f1 /\ Mode f = Mode f1
    /\ Description f = Description f1
    /\ (Type_ f = Type_ f1
        \/ (Type_ f1 = "RECORD"
            /\ typeFromWKT !! fd_TypeName d = Some (Type_ f))).
Proof.
  rewrite convertField_eq. intros H.
  destruct (columnHead d mo) as [[f1|]| |]; try discriminate.
  exists f1. split; [reflexivity|].
  destruct (String.eqb_spec (Type_ f1) "RECORD") as [E|E]; cbn [negb] in H.
  2:{ inversion H; subst. repeat split. left. reflexivity. }
  destruct (typeFromWKT !! fd_TypeName d) as [t|] eqn:Hw.
  { inversion H; subst. repeat split. right. split; [exact E|reflexivity]. }
  destruct (lookupType g cur (fd_TypeName d)) as [rt|]; [|discriminate].
  destruct (getBigqueryMessageOptions rt) as [fmo| |]; try discriminate.
  destruct fuel as [|fuel']; [discriminate|].
  destruct (convertMessageType fuel' g cur rt fmo) as [[|x xs]| |];
    try discriminate.
  inversion H; subst. repeat split. left. reflexivity.
Qed.

End FieldConversion.

Section FieldClaims.

(** C6. For a field with recognised label and kind whose field-level
    options decode: a set drop flag makes the conversion return no column
    and no error, whatever the kind, the label and the type reference, and
    the columns of the declaring message are those of its other fields;
    otherwise the column has mode [REQUIRED] when the force-required flag is
    set and the mode of the label when not, the type-override string as its
    type when that is non-empty and the type of the kind when it is empty (a
    column whose type then is not [RECORD] is complete, one whose type is
    [RECORD] is treated as a record), the description of the options, and as
    its name the name override when that is non-empty, before the wire-safe
    alternate name and the declared name. *)
Theorem field_overrides (fuel : nat) (g : ProtoPackage) (cur : PkgRef)
    (desc : FieldDescriptorProto) (mo : option BigQueryMessageOptions)
    (mode ty : string) (opt : BigQueryFieldOptions) :
  modeFromFieldLabel !! fd_Label desc = Some mode ->
  typeFromFieldType !! fd_Type desc = Some ty ->
  bigqueryOptions desc = ExtValue opt ->
  (opt_Ignore opt = true ->
     convertField fuel g cur desc mo = Ok None
     /\ forall (parent : DescriptorProto)
               (pre post : list FieldDescriptorProto),
         d_Field parent = (pre ++ desc :: post)%list ->
         convertMessageType fuel g cur parent mo =
         convertFields (fun d => convertField fuel g cur d mo)
                       (pre ++ post) [])
  /\ (opt_Ignore opt = false ->
      (forall f : Field,
          convertField fuel g cur desc mo = Ok (Some f) ->
          Mode f = (if opt_Require opt then "REQUIRED" else mode)
          /\ Description f = opt_Description opt
          /\ Name f = (if nonempty (opt_Name opt) then opt_Name opt
                       else if GetUseJsonNames mo && nonempty (fd_JsonName desc)
                            then fd_JsonName desc else fd_Name desc)
          /\ (Type_ f = (if nonempty (opt_TypeOverride opt)
                         then opt_TypeOverride opt else ty)
              \/ ((if nonempty (opt_TypeOverride opt)
                   then opt_TypeOverride opt else ty) = "RECORD"
                  /\ typeFromWKT !! fd_TypeName desc = Some (Type_ f))))
      /\ ((if nonempty (opt_TypeOverride opt)
           then opt_TypeOverride opt else ty) <> "RECORD" ->
          convertField fuel g cur desc mo =
          Ok (Some (mkField
                      (if nonempty (opt_Name opt) then opt_Name opt
                       else baseName desc mo)
                      (if nonempty (opt_TypeOverride opt)
                       then opt_TypeOverride opt else ty)
                      (if opt_Require opt then "REQUIRED" else mode)
                      (opt_Description opt) [])))).
Proof.
  intros Hm Ht Ho.
  pose proof (columnHead_options desc mo mode ty opt Hm Ht Ho) as Hhead.
  split.
  - intros Hi. rewrite Hi in Hhead.
    assert (Hdrop : convertField fuel g cur desc mo = Ok None)
      by (rewrite convertField_eq, Hhead; reflexivity).
    split; [exact Hdrop|].
    intros parent pre post Hp. unfold convertMessageType. rewrite Hp.
    apply (convertFields_skip (fun d => convertField fuel g cur d mo)).
    exact Hdrop.
  - intros Hi. rewrite Hi in Hhead. split.
    + intros f Hf.
      destruct (convertField_from_head _ _ _ _ _ _ Hf)
        as (f1 & Hh & -> & -> & -> & Hty).
      rewrite Hhead in Hh. inversion Hh; subst f1.
      cbn [Name Type_ Mode Description] in *.
      repeat split. exact Hty.
    + intros Hrec. rewrite convertField_eq, Hhead. cbn [Type_].
      destruct (String.eqb_spec
                  (if nonempty (opt_TypeOverride opt)
                   then opt_TypeOverride opt else ty) "RECORD");
        [contradiction|]. reflexivity.
Qed.

Lemma field_overrides_witness :
  convertField 0 globalPkg0 [] SampleFields.overridden SampleFields.useJson
  = Ok (Some (mkField "day" "DATE" "REQUIRED" "the day" []))
  /\ convertField 0 globalPkg0 []
       (SampleFields.withOptions SampleFields.unresolved SampleFields.dropIt)
       None = Ok None.
Proof.
  split.
  - apply (field_overrides 0 globalPkg0 [] SampleFields.overridden
             SampleFields.useJson "REPEATED" "STRING" SampleFields.overrides
             eq_refl eq_refl eq_refl); [reflexivity|].
    vm_compute. discriminate.
  - apply (field_overrides 0 globalPkg0 []
             (SampleFields.withOptions SampleFields.unresolved
                SampleFields.dropIt)
             None "NULLABLE" "RECORD" SampleFields.dropIt
             eq_refl eq_refl eq_refl). reflexivity.
Defined.

End FieldClaims.

Section Tables.

Lemma modeFromFieldLabel_domain (l : Z) :
  modeFromFieldLabel !! l = None <-> (l < 1 \/ 3 < l)%Z.
Proof.
  unfold modeFromFieldLabel, LABEL_OPTIONAL, LABEL_REQUIRED, LABEL_REPEATED.
  cbn [list_to_map foldr fst snd].
  split.
  - intros H.
    destruct (decide (1 <= l <= 3)%Z) as [Hin|Hout]; [|lia].
    assert (l = 1 \/ l = 2 \/ l = 3)%Z as [-> | [-> | ->]] by lia;
      vm_compute in H; discriminate.
  - intros H. repeat (rewrite lookup_insert_ne by lia). apply lookup_empty.
Qed.

Lemma typeFromFieldType_domain (k : Z) :
  typeFromFieldType !! k = None <-> (k < 1 \/ 18 < k)%Z.
Proof.
  unfold typeFromFieldType, TYPE_DOUBLE, TYPE_FLOAT, TYPE_INT64, TYPE_UINT64,
    TYPE_INT32, TYPE_FIXED64, TYPE_FIXED32, TYPE_BOOL, TYPE_STRING,
    TYPE_GROUP, TYPE_MESSAGE, TYPE_BYTES, TYPE_UINT32, TYPE_ENUM,
    TYPE_SFIXED32, TYPE_SFIXED64, TYPE_SINT32, TYPE_SINT64.
  cbn [list_to_map foldr fst snd].
  split.
  - intros H.
    destruct (decide (1 <= k <= 18)%Z) as [Hin|Hout]; [|lia].
    assert (Hk : exists n : nat, (n < 18)%nat /\ k = (1 + Z.of_nat n)%Z).
    { exists (Z.to_nat (k - 1)). lia. }
    destruct Hk as (n & Hn & ->).
    do 18 (destruct n as [|n]; [vm_compute in H; discriminate|]). lia.
  - intros H. repeat (rewrite lookup_insert_ne by lia). apply lookup_empty.
Qed.

End Tables.

Section KindAndLabel.

Lemma typeFromFieldType_RECORD (k : Z) :
  typeFromFieldType !! k = Some "RECORD" ->
  k = TYPE_GROUP \/ k = TYPE_MESSAGE.
Proof.
  intros H.
  destruct (decide (1 <= k <= 18)%Z) as [Hin|Hout].
  - assert (Hk : exists n : nat, (n < 18)%nat /\ k = (1 + Z.of_nat n)%Z).
    { exists (Z.to_nat (k - 1)). lia. }
    destruct Hk as (n & Hn & ->).
    do 18 (destruct n as [|n];
           [vm_compute in H; try discriminate; auto|]). lia.
  - assert (typeFromFieldType !! k = None) as E
      by (apply typeFromFieldType_domain; lia).
    rewrite E in H. discriminate.
Qed.

Lemma isMessageKind_RECORD (desc : FieldDescriptorProto) :
  isMessageKind desc = true ->
  typeFromFieldType !! fd_Type desc = Some "RECORD".
Proof.
  unfold isMessageKind. intros H. apply orb_prop in H.
  destruct H as [H|H]; apply Z.eqb_eq in H; rewrite H; reflexivity.
Qed.

(** The column that [columnHead] gives for a field that stays a record. *)
Lemma columnHead_record (desc : FieldDescriptorProto)
    (mo : option BigQueryMessageOptions) (mode : string) :
  isMessageKind desc = true ->
  modeFromFieldLabel !! fd_Label desc = Some mode ->
  keepsRecordType desc = true ->
  exists f0 : Field,
    columnHead desc mo = Ok (Some f0) /\ Type_ f0 = "RECORD"
    /\ Fields f0 = []
    /\ (bigqueryOptions desc = ExtAbsent ->
        f0 = mkField (baseName desc mo) "RECORD" mode "" []).
Proof.
  intros Hk Hm Hkeep. pose proof (isMessageKind_RECORD desc Hk) as Ht.
  unfold keepsRecordType in Hkeep.
  destruct (bigqueryOptions desc) as [|opt|e] eqn:Ho; [| |discriminate].
  - eexists. rewrite (columnHead_no_options desc mo mode _ Hm Ht Ho).
    repeat split.
  - apply andb_prop in Hkeep. destruct Hkeep as [Hi Hov].
    apply negb_true_iff in Hi.
    eexists. rewrite (columnHead_options desc mo mode _ opt Hm Ht Ho), Hi.
    repeat split; [|discriminate]. simpl.
    destruct (nonempty (opt_TypeOverride opt)); [|reflexivity].
    simpl in Hov. apply String.eqb_eq in Hov. exact Hov.
Qed.

(** C7, as the code has it. The label maps optional to [NULLABLE], required
    to [REQUIRED] and repeated to [REPEATED]; the kind maps by the fixed
    table; the conversion of a field returns a hard error whenever its label
    or its kind is outside these tables; when both are inside, a hard error
    can only come from field options that do not decode or from a column
    that is a record outside the well-known types (an unresolved reference
    or the conversion of the referenced message); and for a field without
    field-level options whose kind is not message or group the labels and
    kinds outside the tables are exactly the hard errors. *)
Theorem label_and_kind_tables (fuel : nat) (g : ProtoPackage) (cur : PkgRef)
    (desc : FieldDescriptorProto) (mo : option BigQueryMessageOptions) :
  (modeFromFieldLabel !! LABEL_OPTIONAL = Some "NULLABLE"
   /\ modeFromFieldLabel !! LABEL_REQUIRED = Some "REQUIRED"
   /\ modeFromFieldLabel !! LABEL_REPEATED = Some "REPEATED")
  /\ (Forall (fun k => typeFromFieldType !! k = Some "FLOAT")
             [TYPE_DOUBLE; TYPE_FLOAT]
      /\ Forall (fun k => typeFromFieldType !! k = Some "INTEGER")
                [TYPE_INT64; TYPE_UINT64; TYPE_INT32; TYPE_UINT32;
                 TYPE_FIXED64; TYPE_FIXED32; TYPE_SFIXED32; TYPE_SFIXED64;
                 TYPE_SINT32; TYPE_SINT64]
      /\ typeFromFieldType !! TYPE_STRING = Some "STRING"
      /\ typeFromFieldType !! TYPE_BYTES = Some "BYTES"
      /\ typeFromFieldType !! TYPE_ENUM = Some "STRING"
      /\ typeFromFieldType !! TYPE_BOOL = Some "BOOLEAN"
      /\ Forall (fun k => typeFromFieldType !! k = Some "RECORD")
                [TYPE_MESSAGE; TYPE_GROUP])
  /\ (modeFromFieldLabel !! fd_Label desc = None ->
      convertField fuel g cur desc mo =
      Err ("unrecognized field label: " ++ EnumName Label_name (fd_Label desc)))
  /\ (forall mode : string,
        modeFromFieldLabel !! fd_Label desc = Some mode ->
        typeFromFieldType !! fd_Type desc = None ->
        convertField fuel g cur desc mo =
        Err ("unrecognized field type: " ++ EnumName Type_name (fd_Type desc)))
  /\ (forall e : error,
        convertField fuel g cur desc mo = Err e ->
        modeFromFieldLabel !! fd_Label desc = None
        \/ typeFromFieldType !! fd_Type desc = None
        \/ bigqueryOptions desc = ExtBad e
        \/ (exists f0 : Field,
              columnHead desc mo = Ok (Some f0) /\ Type_ f0 = "RECORD"
              /\ typeFromWKT !! fd_TypeName desc = None))
  /\ (bigqueryOptions desc = ExtAbsent -> isMessageKind desc = false ->
      ((exists e : error, convertField fuel g cur desc mo = Err e)
       <-> (modeFromFieldLabel !! fd_Label desc = None
            \/ typeFromFieldType !! fd_Type desc = None))).
Proof.
  assert (HL : modeFromFieldLabel !! fd_Label desc = None ->
               convertField fuel g cur desc mo =
               Err ("unrecognized field label: "
                    ++ EnumName Label_name (fd_Label desc))).
  { intros H. rewrite convertField_eq. unfold columnHead. rewrite H.
    reflexivity. }
  assert (HK : forall mode : string,
               modeFromFieldLabel !! fd_Label desc = Some mode ->
               typeFromFieldType !! fd_Type desc = None ->
               convertField fuel g cur desc mo =
               Err ("unrecognized field type: "
                    ++ EnumName Type_name (fd_Type desc))).
  { intros mode H1 H2. rewrite convertField_eq. unfold columnHead.
    rewrite H1, H2. reflexivity. }
  split; [repeat split|]. split; [repeat constructor|].
  split; [exact HL|]. split; [exact HK|]. split.
  - intros e He.
    destruct (modeFromFieldLabel !! fd_Label desc) as [mode|] eqn:Hm;
      [|left; reflexivity].
    destruct (typeFromFieldType !! fd_Type desc) as [ty|] eqn:Ht;
      [|right; left; reflexivity].
    right. right. rewrite convertField_eq in He.
    destruct (bigqueryOptions desc) as [|opt|e'] eqn:Ho.
    + right. rewrite (columnHead_no_options desc mo mode ty Hm Ht Ho) in *.
      eexists. split; [reflexivity|]. simpl in *.
      destruct (String.eqb_spec ty "RECORD"); [|discriminate].
      split; [assumption|]. simpl in He.
      destruct (typeFromWKT !! fd_TypeName desc); [discriminate|reflexivity].
    + right. rewrite (columnHead_options desc mo mode ty opt Hm Ht Ho) in *.
      destruct (opt_Ignore opt); [discriminate|].
      eexists. split; [reflexivity|]. simpl in *.
      match type of He with
      | context [String.eqb ?a "RECORD"] =>
          destruct (String.eqb_spec a "RECORD")
      end; [|discriminate].
      split; [assumption|]. simpl in He.
      destruct (typeFromWKT !! fd_TypeName desc); [discriminate|reflexivity].
    + left. unfold columnHead, bigqueryOptions in *. rewrite Hm, Ht in He.
      destruct (fd_Options desc) as [opts|]; [|discriminate].
      rewrite Ho in He. simpl in He. congruence.
  - intros Ho Hk. split.
    + intros [e He].
      destruct (modeFromFieldLabel !! fd_Label desc) as [mode|] eqn:Hm;
        [|left; reflexivity].
      destruct (typeFromFieldType !! fd_Type desc) as [ty|] eqn:Ht;
        [|right; reflexivity].
      exfalso. rewrite convertField_eq in He.
      rewrite (columnHead_no_options desc mo mode ty Hm Ht Ho) in He.
      simpl in He. destruct (String.eqb_spec ty "RECORD") as [->|];
        [|discriminate].
      apply typeFromFieldType_RECORD in Ht. unfold isMessageKind in Hk.
      apply orb_false_elim in Hk. destruct Hk as [Hk1 Hk2].
      apply Z.eqb_neq in Hk1, Hk2. tauto.
    + intros [H|H].
      * eexists. apply HL, H.
      * destruct (modeFromFieldLabel !! fd_Label desc) as [mode|] eqn:Hm.
        -- eexists. apply (HK mode); auto.
        -- eexists. apply HL. reflexivity.
Qed.

Lemma label_and_kind_tables_witness :
  convertField 0 globalPkg0 [] (SampleFields.scalar "x" 99) None
  = Err "unrecognized field type: 99".
Proof.
  destruct (label_and_kind_tables 0 globalPkg0 []
              (SampleFields.scalar "x" 99) None)
    as (_ & _ & _ & H & _).
  apply (H "NULLABLE"); reflexivity.
Defined.

(** C7, counterexample. An optional field of kind message whose reference
    names no registered message: label and kind are in the tables and the
    conversion returns a hard error. *)
Lemma hard_error_inside_tables :
  modeFromFieldLabel !! fd_Label SampleFields.unresolved = Some "NULLABLE"
  /\ typeFromFieldType !! fd_Type SampleFields.unresolved = Some "RECORD"
  /\ convertField 3 globalPkg0 [globalPkg0] SampleFields.unresolved None
     = Err "no such message type named .nope".
Proof. repeat split. Qed.

(** C8. A field of kind message (or group) whose type reference is in the
    table of well-known types, and whose field-level options neither drop it
    nor give it another type, converts to a column of the mapped scalar type
    without nested columns; the result is the same for every package tree,
    current node and recursion depth, since neither the resolver nor the
    recursion is reached. The table maps the timestamp wrapper to
    [TIMESTAMP], the duration wrapper to [STRING] and the other wrappers to
    their scalar types. *)
Theorem well_known_type_column (desc : FieldDescriptorProto)
    (mo : option BigQueryMessageOptions) (mode t : string) :
  isMessageKind desc = true ->
  modeFromFieldLabel !! fd_Label desc = Some mode ->
  keepsRecordType desc = true ->
  typeFromWKT !! fd_TypeName desc = Some t ->
  (exists f : Field,
      (forall (fuel : nat) (g : ProtoPackage) (cur : PkgRef),
          convertField fuel g cur desc mo = Ok (Some f))
      /\ Type_ f = t /\ Fields f = [] /\ t <> "RECORD"
      /\ (bigqueryOptions desc = ExtAbsent ->
          f = mkField (baseName desc mo) t mode "" []))
  /\ typeFromWKT !! ".google.protobuf.Timestamp" = Some "TIMESTAMP"
  /\ typeFromWKT !! ".google.protobuf.Duration" = Some "STRING"
  /\ Forall (fun k => typeFromWKT !! k = Some "INTEGER")
            [".google.protobuf.Int32Value"; ".google.protobuf.Int64Value";
             ".google.protobuf.UInt32Value"; ".google.protobuf.UInt64Value"]
  /\ Forall (fun k => typeFromWKT !! k = Some "FLOAT")
            [".google.protobuf.DoubleValue"; ".google.protobuf.FloatValue"]
  /\ typeFromWKT !! ".google.protobuf.BoolValue" = Some "BOOLEAN"
  /\ typeFromWKT !! ".google.protobuf.StringValue" = Some "STRING"
  /\ typeFromWKT !! ".google.protobuf.BytesValue" = Some "BYTES".
Proof.
  intros Hk Hm Hkeep Hw. split; [|repeat constructor].
  destruct (columnHead_record desc mo mode Hk Hm Hkeep)
    as (f0 & Hh & Hty & Hfs & Hplain).
  exists (setType f0 t). split; [|repeat split].
  - intros fuel g cur. rewrite convertField_eq, Hh, Hty, Hw. reflexivity.
  - exact Hfs.
  - exact (typeFromWKT_not_RECORD _ _ Hw).
  - intros Ho. rewrite (Hplain Ho). reflexivity.
Qed.

Lemma well_known_type_column_witness :
  exists f : Field,
    (forall (fuel : nat) (g : ProtoPackage) (cur : PkgRef),
        convertField fuel g cur SampleFields.stamp None = Ok (Some f))
    /\ Type_ f = "TIMESTAMP" /\ Fields f = [].
Proof.
  destruct (well_known_type_column SampleFields.stamp None "NULLABLE"
              "TIMESTAMP" eq_refl eq_refl eq_refl eq_refl)
    as [(f & H1 & H2 & H3 & _) _].
  exists f. auto.
Defined.

End KindAndLabel.

(** ** The conversion of a message *)

Section MessageConversion.

Lemma record_never_empty (fuel : nat) (g : ProtoPackage) (cur : PkgRef)
    (desc : FieldDescriptorProto) (mo : option BigQueryMessageOptions)
    (f : Field) :
  convertField fuel g cur desc mo = Ok (Some f) ->
  Type_ f = "RECORD" -> Fields f <> [].
Proof.
  rewrite convertField_eq. intros H Hrec.
  destruct (columnHead desc mo) as [[f0|]| |]; try discriminate.
  destruct (String.eqb_spec (Type_ f0) "RECORD") as [E|E]; simpl in H.
  - destruct (typeFromWKT !! fd_TypeName desc) as [t|] eqn:Hw.
    + inversion H; subst. simpl in Hrec.
      destruct (typeFromWKT_not_RECORD _ _ Hw Hrec).
    + repeat case_match; try discriminate; inversion H; subst; simpl;
        discriminate.
  - inversion H; subst. contradiction.
Qed.

(** C9. A record field (a field whose column has type [RECORD] after the
    overrides, outside the well-known types) whose referenced message
    converts to no column is dropped: its conversion returns no column and
    no error, and the columns of the message that declares the field are
    those of its other fields. No column of type [RECORD] is ever returned
    without nested columns, and a message all of whose fields are dropped
    converts to no column, so that the field that refers to it is dropped
    in turn. *)
Theorem empty_record_dropped (fuel : nat) (g : ProtoPackage) (cur : PkgRef)
    (desc : FieldDescriptorProto) (mo : option BigQueryMessageOptions)
    (f0 : Field) (recordType : DescriptorProto)
    (fieldMsgOpts : option BigQueryMessageOptions) :
  columnHead desc mo = Ok (Some f0) ->
  Type_ f0 = "RECORD" ->
  typeFromWKT !! fd_TypeName desc = None ->
  lookupType g cur (fd_TypeName desc) = Some recordType ->
  getBigqueryMessageOptions recordType = Ok fieldMsgOpts ->
  convertMessageType fuel g cur recordType fieldMsgOpts = Ok [] ->
  convertField (S fuel) g cur desc mo = Ok None
  /\ (forall (parent : DescriptorProto) (pre post : list FieldDescriptorProto),
        d_Field parent = (pre ++ desc :: post)%list ->
        convertMessageType (S fuel) g cur parent mo =
        convertFields (fun d => convertField (S fuel) g cur d mo)
                      (pre ++ post) [])
  /\ (forall (fuel' : nat) (g' : ProtoPackage) (cur' : PkgRef)
             (d' : FieldDescriptorProto)
             (mo' : option BigQueryMessageOptions) (f : Field),
        convertField fuel' g' cur' d' mo' = Ok (Some f) ->
        Type_ f = "RECORD" -> Fields f <> [])
  /\ (forall (fuel' : nat) (msg : DescriptorProto)
             (mo' : option BigQueryMessageOptions),
        Forall (fun d => convertField fuel' g cur d mo' = Ok None)
               (d_Field msg) ->
        convertMessageType fuel' g cur msg mo' = Ok []).
Proof.
  intros Hh Hty Hw Hl Ho Hc.
  assert (Hdrop : convertField (S fuel) g cur desc mo = Ok None).
  { rewrite convertField_eq, Hh, Hty, Hw, Hl, Ho, Hc. reflexivity. }
  split; [exact Hdrop|]. split; [|split].
  - intros parent pre post Hp. unfold convertMessageType. rewrite Hp.
    apply (convertFields_skip
             (fun d => convertField (S fuel) g cur d mo)). exact Hdrop.
  - intros. eapply record_never_empty; eauto.
  - intros fuel' msg mo' Hall. unfold convertMessageType.
    apply (convertFields_all_dropped
             (fun d => convertField fuel' g cur d mo')). exact Hall.
Qed.

Lemma empty_record_dropped_witness :
  convertField 1 SampleMessages.treeP [SampleMessages.treeP]
               (SampleFields.record "leaf" ".p.Leaf") None = Ok None.
Proof.
  apply (empty_record_dropped 0 SampleMessages.treeP [SampleMessages.treeP]
           (SampleFields.record "leaf" ".p.Leaf") None
           (mkField "leaf" "RECORD" "NULLABLE" "" [])
           SampleMessages.leaf None);
    reflexivity.
Defined.

(** The suppression cascades: [Leaf] has only a dropped field, [Mid] only a
    field of type [Leaf], [Top] a scalar and a field of type [Mid]. *)
Example cascade_to_enclosing_record :
  convertMessageType 2 SampleMessages.treeP [SampleMessages.treeP]
                     SampleMessages.top None
  = Ok [mkField "id" "INTEGER" "NULLABLE" "" []].
Proof. reflexivity. Qed.

Lemma getBigqueryMessageOptions_lacking (msg : DescriptorProto) :
  carriesBoth msg = false -> getBigqueryMessageOptions msg = Ok None.
Proof.
  unfold carriesBoth, getBigqueryMessageOptions.
  destruct (d_Options msg) as [options|]; [|reflexivity].
  intros H. apply andb_false_iff in H.
  destruct H as [H|H]; rewrite H; simpl; [reflexivity|].
  rewrite orb_true_r. reflexivity.
Qed.

Lemma convertField_json_irrelevant (fuel : nat) (g : ProtoPackage)
    (cur : PkgRef) (d : FieldDescriptorProto) (j : string) :
  convertField fuel g cur (withJsonName d j) None
  = convertField fuel g cur d None.
Proof. rewrite !convertField_eq. reflexivity. Qed.

Lemma convertField_keeps_name (fuel : nat) (g : ProtoPackage) (cur : PkgRef)
    (d : FieldDescriptorProto) (mo : option BigQueryMessageOptions)
    (f : Field) :
  convertField fuel g cur d mo = Ok (Some f) ->
  exists f1 : Field, columnHead d mo = Ok (Some f1) /\ Name f = Name f1.
Proof.
  intros H. destruct (convertField_from_head _ _ _ _ _ _ H)
    as (f1 & Hh & Hn & _).
  exists f1. auto.
Qed.

Lemma columnHead_declared_name (d : FieldDescriptorProto) (f1 : Field) :
  columnHead d None = Ok (Some f1) ->
  match bigqueryOptions d with
  | ExtValue opt => nonempty (opt_Name opt) = false
  | _ => True
  end ->
  Name f1 = fd_Name d.
Proof.
  unfold columnHead, bigqueryOptions. intros H Hname.
  destruct (modeFromFieldLabel !! fd_Label d) as [mode|]; [|discriminate].
  destruct (typeFromFieldType !! fd_Type d) as [ty|]; [|discriminate].
  destruct (fd_Options d) as [opts|]; [|inversion H; reflexivity].
  destruct (E_Bigquery opts) as [|opt|e]; simpl in H;
    [inversion H; reflexivity| |discriminate].
  destruct (opt_Ignore opt); [discriminate|]. rewrite Hname in H.
  inversion H. repeat case_match; reflexivity.
Qed.

(** C10. A record field whose referenced message lacks the pair of
    annotations, or has no options at all, is converted all the same: the
    resolver of the options gives "absent" without an error, and the
    message is converted with absent options, the field being dropped only
    if no column comes out. Under absent options the alternate names play
    no part: the conversion of a field does not depend on its alternate
    name, and a column without a name override bears the declared name.
    At the top level the same message is skipped. *)
Theorem nested_record_without_annotations (fuel : nat) (g : ProtoPackage)
    (cur : PkgRef) (desc : FieldDescriptorProto)
    (mo : option BigQueryMessageOptions) (f0 : Field)
    (recordType : DescriptorProto) :
  columnHead desc mo = Ok (Some f0) ->
  Type_ f0 = "RECORD" ->
  typeFromWKT !! fd_TypeName desc = None ->
  lookupType g cur (fd_TypeName desc) = Some recordType ->
  carriesBoth recordType = false ->
  getBigqueryMessageOptions recordType = Ok None
  /\ convertField (S fuel) g cur desc mo =
     match convertMessageType fuel g cur recordType None with
     | Ok [] => Ok None
     | Ok (f :: fs) => Ok (Some (setFields f0 (f :: fs)))
     | Err err => Err err
     | NoFuel => NoFuel
     end
  /\ (forall (d : FieldDescriptorProto) (j : string),
        convertField fuel g cur (withJsonName d j) None
        = convertField fuel g cur d None)
  /\ (forall (d : FieldDescriptorProto) (column : Field),
        convertField fuel g cur d None = Ok (Some column) ->
        match bigqueryOptions d with
        | ExtValue opt => nonempty (opt_Name opt) = false
        | _ => True
        end ->
        Name column = fd_Name d)
  /\ (forall (fuel' : nat) (pkg : PkgRef) (file : FileDescriptorProto)
             (response : list CodeGeneratorResponse_File),
        convertMessages fuel' g pkg file [recordType] response = Ok response).
Proof.
  intros Hh Hty Hw Hl Hlack.
  pose proof (getBigqueryMessageOptions_lacking recordType Hlack) as Ho.
  split; [exact Ho|]. split; [|split; [|split]].
  - rewrite convertField_eq, Hh, Hty, Hw, Hl, Ho. reflexivity.
  - intros d j. apply convertField_json_irrelevant.
  - intros d column Hc Hname.
    destruct (convertField_keeps_name _ _ _ _ _ _ Hc) as (f1 & Hh1 & ->).
    exact (columnHead_declared_name d f1 Hh1 Hname).
  - intros fuel' pkg file response. simpl. rewrite Ho. reflexivity.
Qed.

Lemma nested_record_without_annotations_witness :
  convertField 1 SampleMessages.treeP [] SampleMessages.innerField
               SampleFields.useJson
  = Ok (Some (mkField "innerMsg" "RECORD" "NULLABLE" ""
                      [mkField "user_id" "INTEGER" "NULLABLE" "" []])).
Proof.
  destruct (nested_record_without_annotations 0 SampleMessages.treeP []
              SampleMessages.innerField SampleFields.useJson
              (mkField "innerMsg" "RECORD" "NULLABLE" "" [])
              SampleMessages.inner
              eq_refl eq_refl eq_refl eq_refl eq_refl) as (_ & H & _).
  etransitivity; [exact H|]. reflexivity.
Defined.

End MessageConversion.

(** ** The options of a message and the driver *)

Section Driver.







(** An event name that is carried and does not decode: the error of its
    decoding is not looked at, and the table name is made from a nil value. *)
Example undecodable_event_name :
  getBigqueryMessageOptions SampleMessages.garbled
  = Ok (Some {| TableName := "%!s(<nil>)_v3"; UseJsonNames := false |}).
Proof. reflexivity. Qed.

(** The verb [%d]: no sign for a natural number, no leading zero. *)
Example fmt_d_plain :
  fmt_d 0 = "0" /\ fmt_d 2 = "2" /\ fmt_d 10 = "10" /\ fmt_d 2048 = "2048"
  /\ fmt_d (-7) = "-7".
Proof. repeat split. Qed.

(** The artifact of the table-name example and its path. *)
Example purchase_artifact :
  convertFile 0 (registerAll globalPkg0 [SampleMessages.goodFile])
              SampleMessages.goodFile
  = Ok [{| rf_Name := "shop/events/purchase_v2.schema";
           rf_Content := [mkField "id" "STRING" "NULLABLE" "" []] |}].
Proof. vm_compute. reflexivity. Qed.






End Driver.

(** ** The bound on the recursion *)

Section Fuel.

Lemma convertFields_more (cf cf' : FieldDescriptorProto -> result (option Field))
    (l : list FieldDescriptorProto) :
  (forall d, cf d <> NoFuel -> cf' d = cf d) ->
  forall acc : list Field,
    convertFields cf l acc <> NoFuel ->
    convertFields cf' l acc = convertFields cf l acc.
Proof.
  intros H. induction l as [|d l IH]; intros acc Hne; [reflexivity|].
  simpl in *. destruct (cf d) as [[f|]| |] eqn:Hd;
    try (rewrite H by (rewrite Hd; discriminate); rewrite Hd);
    try reflexivity; try (apply IH; exact Hne).
  contradiction.
Qed.

(** A result obtained with some fuel is the result with more fuel: the
    results of the conversion do not depend on the bound. *)
Lemma convertField_more_fuel (fuel : nat) :
  forall (g : ProtoPackage) (cur : PkgRef) (d : FieldDescriptorProto)
         (mo : option BigQueryMessageOptions),
    convertField fuel g cur d mo <> NoFuel ->
    convertField (S fuel) g cur d mo = convertField fuel g cur d mo.
Proof.
  induction fuel as [|fuel IH]; intros g cur d mo Hne;
    rewrite (convertField_eq (S _)); rewrite convertField_eq in Hne |- *.
  - destruct (columnHead d mo) as [[f1|]| |]; try reflexivity.
    destruct (negb (String.eqb (Type_ f1) "RECORD")); try reflexivity.
    destruct (typeFromWKT !! fd_TypeName d); try reflexivity.
    destruct (lookupType g cur (fd_TypeName d)) as [rt|]; try reflexivity.
    destruct (getBigqueryMessageOptions rt); try reflexivity.
    contradiction.
  - destruct (columnHead d mo) as [[f1|]| |]; try reflexivity.
    destruct (negb (String.eqb (Type_ f1) "RECORD")); try reflexivity.
    destruct (typeFromWKT !! fd_TypeName d); try reflexivity.
    destruct (lookupType g cur (fd_TypeName d)) as [rt|]; try reflexivity.
    destruct (getBigqueryMessageOptions rt) as [fmo| |]; try reflexivity.
    assert (E : convertMessageType (S fuel) g cur rt fmo
                = convertMessageType fuel g cur rt fmo).
    { unfold convertMessageType.
      apply (convertFields_more
               (fun fd => convertField fuel g cur fd fmo)
               (fun fd => convertField (S fuel) g cur fd fmo)).
      - intros fd Hfd. apply IH. exact Hfd.
      - intros Hc. apply Hne. unfold convertMessageType. rewrite Hc.
        reflexivity. }
    rewrite E. reflexivity.
Qed.

Lemma convertMessageType_more_fuel (fuel : nat) (g : ProtoPackage)
    (cur : PkgRef) (msg : DescriptorProto)
    (mo : option BigQueryMessageOptions) :
  convertMessageType fuel g cur msg mo <> NoFuel ->
  convertMessageType (S fuel) g cur msg mo
  = convertMessageType fuel g cur msg mo.
Proof.
  unfold convertMessageType.
  apply (convertFields_more
           (fun fd => convertField fuel g cur fd mo)
           (fun fd => convertField (S fuel) g cur fd mo)).
  intros fd Hfd. apply convertField_more_fuel. exact Hfd.
Qed.

End Fuel.

(** ** Registration as an operation on trees *)

Section RegistrationAlgebra.

Lemma registerAt_twice (comps : list string) :
  forall (pkg : ProtoPackage) (msg : DescriptorProto),
    registerAt false (registerAt false pkg comps msg) comps msg
    = registerAt false pkg comps msg.
Proof.
  induction comps as [|c rest IH]; intros pkg msg; simpl.
  - unfold setTypes. simpl. rewrite insert_insert_eq. reflexivity.
  - rewrite lookup_insert_eq. unfold setChild. simpl.
    rewrite insert_insert_eq, IH. reflexivity.
Qed.

(** X1. Registering a message a second time under the same package path changes
    nothing. *)
Theorem registerType_idempotent (g : ProtoPackage) (pkgName : option string)
    (msg : DescriptorProto) :
  registerType (registerType g pkgName msg) pkgName msg
  = registerType g pkgName msg.
Proof. rewrite !registerType_path. apply registerAt_twice. Qed.

Lemma registerAt_commute (comps1 : list string) :
  forall (comps2 : list string) (pkg : ProtoPackage)
         (m1 m2 : DescriptorProto),
    (comps1, d_Name m1) <> (comps2, d_Name m2) ->
    registerAt false (registerAt false pkg comps1 m1) comps2 m2
    = registerAt false (registerAt false pkg comps2 m2) comps1 m1.
Proof.
  induction comps1 as [|c1 r1 IH]; intros comps2 pkg m1 m2 Hne;
    destruct comps2 as [|c2 r2]; simpl.
  - unfold setTypes. simpl. f_equal. apply insert_insert_ne. congruence.
  - reflexivity.
  - reflexivity.
  - destruct (decide (c1 = c2)) as [->|Hc].
    + rewrite !lookup_insert_eq. unfold setChild. simpl.
      rewrite !insert_insert_eq. f_equal. f_equal.
      apply IH. congruence.
    + rewrite !lookup_insert_ne by congruence. unfold setChild. simpl.
      f_equal. apply insert_insert_ne. congruence.
Qed.

Lemma registerType_commute (g : ProtoPackage)
    (r1 r2 : option string * DescriptorProto) :
  target r1 <> target r2 ->
  registerType (registerType g (fst r1) (snd r1)) (fst r2) (snd r2)
  = registerType (registerType g (fst r2) (snd r2)) (fst r1) (snd r1).
Proof.
  intros H. rewrite !registerType_path. apply registerAt_commute. exact H.
Qed.

Lemma registerEach_permutation
    (regs regs' : list (option string * DescriptorProto)) :
  Permutation regs regs' ->
  NoDup (map target regs) ->
  forall g : ProtoPackage, registerEach g regs = registerEach g regs'.
Proof.
  unfold registerEach.
  induction 1 as [|r l l' Hp IH|r1 r2 l|l l' l'' Hp1 IH1 Hp2 IH2];
    intros Hnd g; simpl.
  - reflexivity.
  - apply IH. inversion Hnd; assumption.
  - rewrite (registerType_commute g r2 r1); [reflexivity|].
    inversion Hnd as [|? ? Hnotin _]; subst. intros E. apply Hnotin.
    rewrite E. left.
  - rewrite IH1 by assumption. apply IH2.
    assert (Hm : map target l ≡ₚ map target l')
      by (apply Permutation_map; exact Hp1).
    rewrite <- Hm. exact Hnd.
Qed.

(** X2. The tree that a sequence of registrations builds does not depend on
    their order, as long as no two of them write the same simple name in the
    same node; so the tree that the first loop of [Convert] builds does not
    depend on the order of the files and of their messages. *)
Theorem registration_order_independent
    (regs regs' : list (option string * DescriptorProto)) :
  Permutation regs regs' ->
  NoDup (map target regs) ->
  (forall g : ProtoPackage, registerEach g regs = registerEach g regs')
  /\ (forall (files files' : list FileDescriptorProto) (g : ProtoPackage),
        registrationsOf files = regs -> registrationsOf files' = regs' ->
        registerAll g files = registerAll g files').
Proof.
  intros Hp Hnd. split.
  - apply registerEach_permutation; assumption.
  - intros files files' g <- <-. rewrite !registerAll_registerEach.
    apply registerEach_permutation; assumption.
Qed.

Lemma registration_order_independent_witness :
  registerAll globalPkg0 [SampleMessages.goodFile; SampleMessages.badFile]
  = registerAll globalPkg0 [SampleMessages.badFile; SampleMessages.goodFile].
Proof.
  destruct (registration_order_independent
              (registrationsOf [SampleMessages.goodFile; SampleMessages.badFile])
              (registrationsOf [SampleMessages.badFile; SampleMessages.goodFile]))
    as [_ H].
  - apply perm_swap.
  - vm_compute. apply NoDup_cons; split; [|apply NoDup_singleton].
    intros H%list_elem_of_singleton. discriminate H.
  - apply H; reflexivity.
Defined.

End RegistrationAlgebra.

(** ** The packages of the tree *)

Section Packages.

Lemma walkPackage_Some (comps : list string) :
  forall (p : ProtoPackage) (anc : list ProtoPackage) (node : ProtoPackage),
    nodeAt p comps = Some node ->
    exists tl : list ProtoPackage,
      walkPackage (p :: anc) comps = Some (node :: tl)
      /\ last (node :: tl) = last (p :: anc)
      /\ length tl = (length comps + length anc)%nat.
Proof.
  induction comps as [|c rest IH]; intros p anc node H; simpl in *.
  - inversion H; subst. exists anc. auto.
  - destruct (children p !! c) as [child|]; [|discriminate].
    destruct (IH child (p :: anc) node H) as (tl & Hw & Hl & Hlen).
    exists tl. split; [exact Hw|]. split.
    + rewrite Hl. reflexivity.
    + rewrite Hlen. simpl. lia.
Qed.

Lemma walkPackage_None (comps : list string) :
  forall (p : ProtoPackage) (anc : list ProtoPackage),
    nodeAt p comps = None -> walkPackage (p :: anc) comps = None.
Proof.
  induction comps as [|c rest IH]; intros p anc H; simpl in *;
    [discriminate|].
  destruct (children p !! c) as [child|]; [|reflexivity]. apply IH, H.
Qed.

Lemma typeAt_nodeAt (comps : list string) :
  forall (pkg : ProtoPackage) (n : string),
    typeAt pkg comps n =
    match nodeAt pkg comps with
    | Some node => types node !! n
    | None => None
    end.
Proof.
  induction comps as [|c rest IH]; intros pkg n; simpl; [reflexivity|].
  destruct (children pkg !! c); [apply IH|reflexivity].
Qed.

Lemma nodeAt_registerAt_target (comps : list string) :
  forall (pkg : ProtoPackage) (msg : DescriptorProto),
    is_Some (nodeAt (registerAt false pkg comps msg) comps).
Proof.
  induction comps as [|c rest IH]; intros pkg msg; simpl; [eauto|].
  rewrite lookup_insert_eq. apply IH.
Qed.

Lemma nodeAt_registerAt_kept (comps' : list string) :
  forall (pkg : ProtoPackage) (msg' : DescriptorProto) (comps : list string),
    is_Some (nodeAt pkg comps) ->
    is_Some (nodeAt (registerAt false pkg comps' msg') comps).
Proof.
  induction comps' as [|c' rest' IH]; intros pkg msg' comps H.
  - destruct comps; simpl in *; [eauto|exact H].
  - destruct comps as [|c rest]; simpl in *; [eauto|].
    destruct (decide (c' = c)) as [->|Hc].
    + rewrite lookup_insert_eq.
      destruct (children pkg !! c) as [child|]; [|destruct H; discriminate].
      apply IH, H.
    + rewrite lookup_insert_ne by exact Hc. exact H.
Qed.

Lemma nodeAt_registerEach_kept
    (regs : list (option string * DescriptorProto)) :
  forall (g : ProtoPackage) (comps : list string),
    is_Some (nodeAt g comps) -> is_Some (nodeAt (registerEach g regs) comps).
Proof.
  unfold registerEach.
  induction regs as [|r regs IH]; intros g comps H; simpl; [exact H|].
  apply IH. rewrite registerType_path. apply nodeAt_registerAt_kept, H.
Qed.

Lemma root_child_empty_kept (g : ProtoPackage) (pkgName : option string)
    (msg : DescriptorProto) :
  children g !! "" = None -> children (registerType g pkgName msg) !! "" = None.
Proof.
  intros H. rewrite registerType_path.
  assert (Hd : forall l, match dropEmpty l with
                         | c :: _ => c <> ""
                         | [] => True
                         end).
  { induction l as [|c l IH]; simpl; [exact I|].
    destruct c; [exact IH|discriminate]. }
  specialize (Hd (match pkgName with Some p => Split p | None => [] end)).
  unfold packagePath.
  destruct (dropEmpty _) as [|c rest]; simpl; [exact H|].
  rewrite lookup_insert_ne by exact Hd. exact H.
Qed.

Lemma root_child_empty_registerEach
    (regs : list (option string * DescriptorProto)) :
  forall g : ProtoPackage,
    children g !! "" = None -> children (registerEach g regs) !! "" = None.
Proof.
  unfold registerEach.
  induction regs as [|r regs IH]; intros g H; simpl; [exact H|].
  apply IH, root_child_empty_kept, H.
Qed.

Lemma Split_head_empty (p : string) :
  nonempty p = false \/ HasPrefixDot p = true ->
  exists rest : list string, Split p = "" :: rest.
Proof.
  destruct p as [|c r]; simpl; [eauto|].
  intros [H|H]; [discriminate|]. rewrite H. eauto.
Qed.

(** X5. A file without a package, or whose package path begins with a separator,
    is never converted: in a tree built by registrations from the empty
    root, [convertFile] returns the error "no such package found", whatever
    the messages of the file and those registered. *)
Theorem convertFile_without_package (fuel : nat)
    (files : list FileDescriptorProto) (file : FileDescriptorProto) :
  nonempty (GetPackage file) = false \/ HasPrefixDot (GetPackage file) = true ->
  convertFile fuel (registerAll globalPkg0 files) file
  = Err ("no such package found: " ++ GetPackage file).
Proof.
  intros Hp. unfold convertFile, relativelyLookupPackage.
  destruct (Split_head_empty _ Hp) as [rest ->]. simpl.
  rewrite registerAll_registerEach.
  rewrite root_child_empty_registerEach by apply lookup_empty. reflexivity.
Qed.

End Packages.

Section OwnPackage.

Lemma dotfree_no_prefix (n : string) : dotfree n = true -> HasPrefixDot n = false.
Proof.
  destruct n as [|c r]; simpl; [reflexivity|].
  destruct (Ascii.eqb c sep); [discriminate|reflexivity].
Qed.

Lemma own_package_after_registrations
    (g : ProtoPackage) (p : string) (msg : DescriptorProto)
    (later : list (option string * DescriptorProto)) :
  HasPrefixDot p = false -> nonempty p = true ->
  exists (node : ProtoPackage) (tl : list ProtoPackage),
    relativelyLookupPackage
      [registerEach (registerType g (Some p) msg) later] p
    = Some (node :: tl)
    /\ last (node :: tl)
       = Some (registerEach (registerType g (Some p) msg) later)
    /\ length (node :: tl) = S (length (Split p))
    /\ forall n : string,
         types node !! n
         = typeAt (registerEach (registerType g (Some p) msg) later)
                  (Split p) n.
Proof.
  intros Hp Hne.
  assert (Hn : is_Some (nodeAt (registerEach (registerType g (Some p) msg) later)
                               (Split p))).
  { apply nodeAt_registerEach_kept. rewrite registerType_path.
    rewrite (packagePath_plain p Hp Hne). apply nodeAt_registerAt_target. }
  destruct Hn as [node Hnode].
  destruct (walkPackage_Some (Split p) _ [] node Hnode) as (tl & Hw & Hl & Hlen).
  exists node, tl. unfold relativelyLookupPackage.
  split; [exact Hw|]. split; [exact Hl|]. split.
  - simpl. rewrite Hlen. simpl. lia.
  - intros n. rewrite typeAt_nodeAt, Hnode. reflexivity.
Qed.

(** X3. A message is found by its simple name from the node of its own package:
    after the registration of a message under a package path without a
    leading separator, and after any registrations that do not write the
    same name in the same node, the package is found from the root, the
    chain of the found node ends at the root and has a node for every
    component, and the simple name of the message, looked up from that node,
    gives the message. *)
Theorem own_package_lookup
    (g : ProtoPackage) (p : string) (msg : DescriptorProto)
    (later : list (option string * DescriptorProto)) :
  HasPrefixDot p = false -> nonempty p = true ->
  dotfree (d_Name msg) = true ->
  Forall (fun r => target r <> target (Some p, msg)) later ->
  exists pkg : PkgRef,
    relativelyLookupPackage
      [registerEach (registerType g (Some p) msg) later] p = Some pkg
    /\ last pkg = Some (registerEach (registerType g (Some p) msg) later)
    /\ length pkg = S (length (Split p))
    /\ lookupType (registerEach (registerType g (Some p) msg) later) pkg
                  (d_Name msg) = Some msg.
Proof.
  intros Hp Hne Hn Hlater.
  destruct (own_package_after_registrations g p msg later Hp Hne)
    as (node & tl & Hw & Hl & Hlen & Hty).
  exists (node :: tl). split; [exact Hw|]. split; [exact Hl|].
  split; [exact Hlen|].
  unfold lookupType. rewrite (dotfree_no_prefix _ Hn). simpl.
  rewrite relativelyLookupType_eq, (SplitN2_dotfree _ Hn), Hty.
  rewrite typeAt_registerEach by (rewrite <- (packagePath_plain p Hp Hne);
                                  exact Hlater).
  rewrite registerType_path, <- (packagePath_plain p Hp Hne).
  rewrite typeAt_registerAt_same. reflexivity.
Qed.

Lemma own_package_lookup_witness :
  exists pkg : PkgRef,
    relativelyLookupPackage
      [registerEach (registerType globalPkg0 (Some "a.b") Sample.msgM)
                    [(Some "a", Sample.msgN)]] "a.b" = Some pkg
    /\ lookupType
         (registerEach (registerType globalPkg0 (Some "a.b") Sample.msgM)
                       [(Some "a", Sample.msgN)]) pkg "M"
       = Some Sample.msgM.
Proof.
  destruct (own_package_lookup globalPkg0 "a.b" Sample.msgM
              [(Some "a", Sample.msgN)])
    as (pkg & H1 & _ & _ & H2).
  - reflexivity.
  - reflexivity.
  - reflexivity.
  - repeat constructor; vm_compute; discriminate.
  - exists pkg. split; [exact H1|exact H2].
Defined.

Lemma registrationsOf_split (files : list FileDescriptorProto)
    (file : FileDescriptorProto) (msg : DescriptorProto) :
  In file files -> In msg (file_MessageType file) ->
  exists earlier later,
    registrationsOf files
    = (earlier ++ (file_Package file, msg) :: later)%list.
Proof.
  intros Hf Hm. apply in_split. unfold registrationsOf.
  apply in_flat_map. exists file. split; [exact Hf|].
  apply in_map_iff. exists msg. auto.
Qed.

(** X4. The package of a file of the request is found when the file declares at
    least one message and its package path is not empty and has no leading
    separator: [convertFile] does not then fail for want of the package. *)
Theorem package_of_registered_file (g : ProtoPackage)
    (files : list FileDescriptorProto) (file : FileDescriptorProto)
    (msg : DescriptorProto) :
  In file files -> In msg (file_MessageType file) ->
  HasPrefixDot (GetPackage file) = false ->
  nonempty (GetPackage file) = true ->
  exists pkg : PkgRef,
    relativelyLookupPackage [registerAll g files] (GetPackage file) = Some pkg
    /\ last pkg = Some (registerAll g files)
    /\ forall fuel : nat,
         convertFile fuel (registerAll g files) file
         = convertMessages fuel (registerAll g files) pkg file
                           (file_MessageType file) [].
Proof.
  intros Hf Hm Hp Hne.
  destruct (registrationsOf_split files file msg Hf Hm)
    as (earlier & later & Hregs).
  assert (Hpk : file_Package file = Some (GetPackage file)).
  { unfold GetPackage in *. destruct (file_Package file); [reflexivity|].
    discriminate. }
  rewrite Hpk in Hregs.
  assert (Htree : registerAll g files
                  = registerEach (registerType (registerEach g earlier)
                                    (Some (GetPackage file)) msg) later).
  { rewrite registerAll_registerEach, Hregs. unfold registerEach.
    rewrite fold_left_app. reflexivity. }
  destruct (own_package_after_registrations (registerEach g earlier)
              (GetPackage file) msg later Hp Hne)
    as (node & tl & Hw & Hl & _).
  rewrite <- Htree in Hw, Hl.
  exists (node :: tl). split; [exact Hw|]. split; [exact Hl|].
  intros fuel. unfold convertFile. rewrite Hw. reflexivity.
Qed.

Lemma package_of_registered_file_witness :
  exists pkg : PkgRef,
    relativelyLookupPackage
      [registerAll globalPkg0 (ProtoFile SampleMessages.request)]
      "shop.events" = Some pkg.
Proof.
  destruct (package_of_registered_file globalPkg0
              (ProtoFile SampleMessages.request) SampleMessages.goodFile
              SampleMessages.purchase) as (pkg & H & _).
  - left. reflexivity.
  - left. reflexivity.
  - reflexivity.
  - reflexivity.
  - exists pkg. exact H.
Defined.

Lemma registerAll_no_messages (files : list FileDescriptorProto) :
  Forall (fun f => file_MessageType f = []) files ->
  forall g : ProtoPackage, registerAll g files = g.
Proof.
  unfold registerAll.
  induction 1 as [|f files Hf _ IH]; intros g; simpl; [reflexivity|].
  unfold registerFile at 2. rewrite Hf. simpl. apply IH.
Qed.

End OwnPackage.

Section EmptyRequest.

(** X6. When no file of a request declares a message, nothing is registered, and
    the conversion of any file, with or without a package, fails with the
    error "no such package found". *)
Theorem convertFile_nothing_registered (fuel : nat)
    (files : list FileDescriptorProto) (file : FileDescriptorProto) :
  Forall (fun f => file_MessageType f = []) files ->
  registerAll globalPkg0 files = globalPkg0
  /\ convertFile fuel (registerAll globalPkg0 files) file
     = Err ("no such package found: " ++ GetPackage file).
Proof.
  intros H. rewrite (registerAll_no_messages files H). split; [reflexivity|].
  unfold convertFile, relativelyLookupPackage.
  destruct (Split (GetPackage file)) as [|c rest] eqn:E;
    [destruct (Split_nonnil _ E)|].
  simpl. rewrite lookup_empty. reflexivity.
Qed.

Lemma convertFile_nothing_registered_witness :
  convertFile 0
    (registerAll globalPkg0
       [{| file_Name := "empty.proto"; file_Package := Some "nothing";
           file_MessageType := [] |}])
    {| file_Name := "empty.proto"; file_Package := Some "nothing";
       file_MessageType := [] |}
  = Err "no such package found: nothing".
Proof.
  apply (convertFile_nothing_registered 0
           [{| file_Name := "empty.proto"; file_Package := Some "nothing";
               file_MessageType := [] |}]).
  repeat constructor.
Defined.

End EmptyRequest.

(** ** What the resolver returns *)

Section Keyed.

Lemma keyed_empty : keyed globalPkg0.
Proof.
  intros comps n m H. destruct comps; simpl in H;
    rewrite lookup_empty in H; discriminate.
Qed.

Lemma keyed_registerType (g : ProtoPackage) (pkgName : option string)
    (msg : DescriptorProto) :
  keyed g -> keyed (registerType g pkgName msg).
Proof.
  intros Hk comps n m H. rewrite registerType_path in H.
  destruct (decide ((packagePath pkgName, d_Name msg) = (comps, n)))
    as [E|E].
  - inversion E; subst. rewrite typeAt_registerAt_same in H.
    inversion H; subst. reflexivity.
  - rewrite typeAt_registerAt_other in H by exact E. exact (Hk _ _ _ H).
Qed.

Lemma keyed_registerEach (regs : list (option string * DescriptorProto)) :
  forall g : ProtoPackage, keyed g -> keyed (registerEach g regs).
Proof.
  unfold registerEach.
  induction regs as [|r regs IH]; intros g H; simpl; [exact H|].
  apply IH, keyed_registerType, H.
Qed.

Lemma keyed_child (pkg child : ProtoPackage) (c : string) :
  keyed pkg -> children pkg !! c = Some child -> keyed child.
Proof.
  intros Hk Hc comps n m H. apply (Hk (c :: comps)). simpl. rewrite Hc.
  exact H.
Qed.

Lemma keyed_walkPackage (comps : list string) :
  forall pkg pkg' : PkgRef,
    Forall keyed pkg -> walkPackage pkg comps = Some pkg' -> Forall keyed pkg'.
Proof.
  induction comps as [|c rest IH]; intros pkg pkg' Hk H; simpl in H.
  - inversion H; subst. exact Hk.
  - destruct pkg as [|p anc]; [discriminate|].
    destruct (children p !! c) as [child|] eqn:Hc; [|discriminate].
    apply (IH (child :: p :: anc)); [|exact H].
    constructor; [|exact Hk]. inversion Hk; subst.
    eapply keyed_child; eauto.
Qed.

Lemma nestedLoop_last (components : list string) :
  forall (desc d : DescriptorProto),
    components <> [] ->
    nestedLoop desc components = Some d ->
    d_Name d = List.last components "".
Proof.
  induction components as [|c rest IH]; intros desc d Hne H;
    [contradiction|].
  simpl in H.
  destruct (List.find _ (d_NestedType desc)) as [nested|] eqn:Hf;
    [|discriminate].
  destruct rest as [|c' rest'].
  - simpl in H. inversion H; subst.
    apply List.find_some in Hf. destruct Hf as [_ Hf].
    apply String.eqb_eq in Hf. exact Hf.
  - apply (IH nested d); [discriminate|exact H].
Qed.

Lemma relativelyLookupType_last (k : nat) :
  forall (pkg : ProtoPackage) (nm : string) (d : DescriptorProto),
    String.length nm < k -> keyed pkg ->
    relativelyLookupType pkg nm = Some d -> d_Name d = lastSegment nm.
Proof.
  induction k as [|k IH]; intros pkg nm d Hlen Hk H; [lia|].
  rewrite relativelyLookupType_eq in H. unfold lastSegment.
  rewrite Split_cut. unfold SplitN2 in H.
  destruct (cut nm) as [h [t|]] eqn:Hcut.
  - assert (Ht : String.length t < k).
    { destruct (cut_Some_dotfree _ _ _ Hcut) as [_ ->].
      clear - Hlen. revert Hlen. induction h as [|x h IHh]; simpl; intros;
        [lia|]. apply IHh. simpl in *. lia. }
    assert (Hl : List.last (h :: Split t) "" = lastSegment t).
    { unfold lastSegment. destruct (Split t) eqn:E;
        [destruct (Split_nonnil _ E)|reflexivity]. }
    rewrite Hl.
    destruct (children pkg !! h) as [child|] eqn:Hc.
    + apply (IH child t d Ht); [eapply keyed_child; eauto|exact H].
    + destruct (types pkg !! h) as [msg|]; [|discriminate].
      unfold relativelyLookupNestedType in H.
      apply nestedLoop_last in H; [exact H|apply Split_nonnil].
  - simpl. apply (Hk [] h d). exact H.
Qed.

(** X7. In a tree built by registrations from the empty root, a reference
    resolves only to a message whose simple name is the last dotted segment
    of the reference, from the root or from any package found in the tree,
    whether the message is a type of a package or a nested type. *)
Theorem lookupType_name (regs : list (option string * DescriptorProto))
    (pkgPath nm : string) (pkg : PkgRef) (d : DescriptorProto) :
  relativelyLookupPackage [registerEach globalPkg0 regs] pkgPath = Some pkg ->
  lookupType (registerEach globalPkg0 regs) pkg nm = Some d ->
  d_Name d = lastSegment nm.
Proof.
  intros Hpkg H.
  assert (Hg : keyed (registerEach globalPkg0 regs))
    by apply keyed_registerEach, keyed_empty.
  assert (Hchain : Forall keyed pkg).
  { eapply keyed_walkPackage; [|exact Hpkg]. repeat constructor. exact Hg. }
  unfold lookupType in H. destruct (HasPrefixDot nm) eqn:Hdot.
  - destruct nm as [|c r]; [discriminate|]. simpl in Hdot, H.
    apply Ascii.eqb_eq in Hdot. subst c.
    apply (relativelyLookupType_last (S (String.length r))) in H;
      [|lia|exact Hg].
    rewrite H. unfold lastSegment. simpl.
    destruct (Split r) eqn:E; [destruct (Split_nonnil _ E)|reflexivity].
  - clear Hpkg. induction Hchain as [|p anc Hp _ IH]; simpl in H;
      [discriminate|].
    destruct (relativelyLookupType p nm) as [d'|] eqn:Hrel.
    + inversion H; subst.
      apply (relativelyLookupType_last (S (String.length nm))) in Hrel;
        [exact Hrel|lia|exact Hp].
    + apply IH, H.
Qed.

Lemma lookupType_name_witness :
  d_Name Sample.msgN = lastSegment "b.N".
Proof.
  apply (lookupType_name
           [(Some "a.b.c", Sample.msgM); (Some "a.b", Sample.msgN);
            (Some "x", Sample.plainMsg "X")]
           "a.b.c" "b.N" Sample.chainABC Sample.msgN).
  - reflexivity.
  - vm_compute. reflexivity.
Defined.

End Keyed.

(** ** The options that the resolver yields *)

Section ResolverOptions.

Lemma nonempty_append (a b : string) :
  nonempty (a ++ b) = nonempty a || nonempty b.
Proof. destruct a; [destruct b|]; reflexivity. Qed.

Lemma resolver_options (msg : DescriptorProto) (o : BigQueryMessageOptions) :
  getBigqueryMessageOptions msg = Ok (Some o) ->
  UseJsonNames o = false /\ nonempty (TableName o) = true.
Proof.
  unfold getBigqueryMessageOptions. intros H.
  destruct (d_Options msg) as [options|]; [|discriminate].
  destruct (negb (HasExtension (E_EventName options))
            || negb (HasExtension (E_EventVersion options)));
    [discriminate|].
  destruct (GetExtension (E_EventName options)) as [eventName err].
  destruct (GetExtension (E_EventVersion options)) as [eventVersion err'].
  assert (G : forall x : string,
             nonempty (x ++ "_v" ++ fmt_d_iface eventVersion) = true).
  { intros x. rewrite nonempty_append. apply orb_true_r. }
  destruct eventName as [[|c s]|]; destruct err as [e|];
    destruct err' as [e'|]; try discriminate;
    inversion H; subst; simpl; split; try reflexivity; apply G.
Qed.

Lemma convertMessages_cons (fuel : nat) (g : ProtoPackage) (pkg : PkgRef)
    (file : FileDescriptorProto) (m : DescriptorProto)
    (msgs : list DescriptorProto) (resp : list CodeGeneratorResponse_File) :
  convertMessages fuel g pkg file (m :: msgs) resp =
  match getBigqueryMessageOptions m with
  | Err err => Err err
  | NoFuel => NoFuel
  | Ok None => convertMessages fuel g pkg file msgs resp
  | Ok (Some o) =>
      match convertMessageType fuel g pkg m (Some o) with
      | Err err => Err err
      | NoFuel => NoFuel
      | Ok schema =>
          convertMessages fuel g pkg file msgs
            (resp ++ [{| rf_Name := artifactName file (TableName o);
                         rf_Content := schema |}])
      end
  end.
Proof.
  cbn [convertMessages].
  destruct (getBigqueryMessageOptions m) as [[o|]| |] eqn:Ho; try reflexivity.
  destruct (resolver_options m o Ho) as [_ Hn].
  cbn [GetTableName]. rewrite Hn. reflexivity.
Qed.

End ResolverOptions.

(** ** The columns of a message *)

Section Columns.

Lemma convertFields_app_acc (cf : FieldDescriptorProto -> result (option Field))
    (l : list FieldDescriptorProto) :
  forall acc : list Field,
    convertFields cf l acc =
    match convertFields cf l [] with
    | Ok out => Ok (acc ++ out)%list
    | Err e => Err e
    | NoFuel => NoFuel
    end.
Proof.
  induction l as [|d l IH]; intros acc; simpl.
  - rewrite app_nil_r. reflexivity.
  - destruct (cf d) as [[f|]| |]; try reflexivity; [|apply IH].
    rewrite (IH (acc ++ [f])%list), (IH [f]).
    destruct (convertFields cf l []); try reflexivity.
    rewrite <- app_assoc. reflexivity.
Qed.

Lemma convertFields_Ok (cf : FieldDescriptorProto -> result (option Field))
    (l : list FieldDescriptorProto) :
  forall out : list Field,
    convertFields cf l [] = Ok out <->
    exists rs : list (option Field),
      Forall2 (fun d r => cf d = Ok r) l rs /\ out = omap id rs.
Proof.
  induction l as [|d l IH]; intros out; simpl.
  - split.
    + intros H. inversion H; subst. exists []. split; constructor.
    + intros (rs & Hrs & ->). inversion Hrs; subst. reflexivity.
  - split.
    + intros H. destruct (cf d) as [[f|]| |] eqn:Hd; try discriminate.
      * rewrite convertFields_app_acc in H.
        destruct (convertFields cf l []) as [out'| |] eqn:Hl;
          try discriminate.
        inversion H; subst. destruct (proj1 (IH out') eq_refl)
          as (rs & Hrs & ->).
        exists (Some f :: rs). split; [constructor; assumption|reflexivity].
      * destruct (proj1 (IH out) H) as (rs & Hrs & ->).
        exists (None :: rs). split; [constructor; assumption|reflexivity].
    + intros (rs & Hrs & ->). inversion Hrs as [|? r ? rs' Hd Hrest]; subst.
      rewrite Hd. destruct r as [f|].
      * rewrite convertFields_app_acc.
        rewrite (proj2 (IH (omap id rs'))) by eauto. reflexivity.
      * apply IH. eauto.
Qed.

Lemma convertFields_Err (cf : FieldDescriptorProto -> result (option Field))
    (l : list FieldDescriptorProto) (e : error) :
  forall acc : list Field,
    convertFields cf l acc = Err e <->
    exists pre d post,
      l = (pre ++ d :: post)%list
      /\ Forall (fun x => exists r, cf x = Ok r) pre
      /\ cf d = Err e.
Proof.
  induction l as [|d l IH]; intros acc; simpl.
  - split; [discriminate|]. intros (pre & d & post & H & _).
    destruct pre; discriminate.
  - split.
    + intros H. destruct (cf d) as [[f|]| |] eqn:Hd; try discriminate.
      * destruct (proj1 (IH _) H) as (pre & d' & post & -> & Hpre & Hd').
        exists (d :: pre), d', post. repeat split; eauto.
      * destruct (proj1 (IH _) H) as (pre & d' & post & -> & Hpre & Hd').
        exists (d :: pre), d', post. repeat split; eauto.
      * inversion H; subst. exists [], d, l. repeat split; auto.
    + intros (pre & d' & post & Hl & Hpre & Hd').
      destruct pre as [|x pre]; simpl in Hl; inversion Hl; subst.
      * rewrite Hd'. reflexivity.
      * inversion Hpre as [|? ? [r Hx] Hpre']; subst. rewrite Hx.
        destruct r; apply IH; eauto 6.
Qed.

(** X9. The columns of a message are, in the order of the declarations, the
    columns of those of its fields that are not skipped; and when the
    conversion fails, the error is that of the first field whose conversion
    fails, every field before it having been converted. *)
Theorem convertMessageType_columns (fuel : nat) (g : ProtoPackage)
    (cur : PkgRef) (msg : DescriptorProto)
    (mo : option BigQueryMessageOptions) :
  (forall out : list Field,
      convertMessageType fuel g cur msg mo = Ok out <->
      exists rs : list (option Field),
        Forall2 (fun d r => convertField fuel g cur d mo = Ok r)
                (d_Field msg) rs
        /\ out = omap id rs)
  /\ (forall e : error,
        convertMessageType fuel g cur msg mo = Err e <->
        exists pre d post,
          d_Field msg = (pre ++ d :: post)%list
          /\ Forall (fun x => exists r, convertField fuel g cur x mo = Ok r)
                    pre
          /\ convertField fuel g cur d mo = Err e).
Proof.
  unfold convertMessageType. split.
  - intros out.
    apply (convertFields_Ok (fun d => convertField fuel g cur d mo)).
  - intros e.
    apply (convertFields_Err (fun d => convertField fuel g cur d mo)).
Qed.

Lemma convertFields_Forall (P : Field -> Prop)
    (cf : FieldDescriptorProto -> result (option Field))
    (l : list FieldDescriptorProto) (out : list Field) :
  (forall d f, In d l -> cf d = Ok (Some f) -> P f) ->
  convertFields cf l [] = Ok out -> Forall P out.
Proof.
  intros HP H. apply convertFields_Ok in H. destruct H as (rs & Hrs & ->).
  induction Hrs as [|d r l rs Hd Hrest IH]; [constructor|].
  assert (IH' : Forall P (omap id rs)) by (apply IH; intros; eapply HP;
                                           [right|]; eauto).
  destruct r as [f|]; simpl; [|exact IH'].
  constructor; [|exact IH']. apply (HP d); [left; reflexivity|exact Hd].
Qed.

Lemma modeFromFieldLabel_values (l : Z) (m : string) :
  modeFromFieldLabel !! l = Some m ->
  m = "NULLABLE" \/ m = "REQUIRED" \/ m = "REPEATED".
Proof.
  intros H.
  destruct (decide (1 <= l <= 3)%Z) as [Hin|Hout].
  - assert (l = 1 \/ l = 2 \/ l = 3)%Z as [-> | [-> | ->]] by lia;
      vm_compute in H; inversion H; auto.
  - assert (E : modeFromFieldLabel !! l = None)
      by (apply modeFromFieldLabel_domain; lia).
    rewrite E in H. discriminate.
Qed.

Lemma columnHead_mode (d : FieldDescriptorProto)
    (mo : option BigQueryMessageOptions) (f : Field) :
  columnHead d mo = Ok (Some f) ->
  Mode f = "NULLABLE" \/ Mode f = "REQUIRED" \/ Mode f = "REPEATED".
Proof.
  unfold columnHead. intros H.
  destruct (modeFromFieldLabel !! fd_Label d) as [mode|] eqn:Hm;
    [|discriminate].
  apply modeFromFieldLabel_values in Hm.
  destruct (typeFromFieldType !! fd_Type d) as [ty|]; [|discriminate].
  destruct (fd_Options d) as [opts|]; [|inversion H; exact Hm].
  destruct (E_Bigquery opts) as [|opt|e]; simpl in H;
    [inversion H; exact Hm| |discriminate].
  destruct (opt_Ignore opt); [discriminate|].
  inversion H. destruct (opt_Require opt); repeat case_match; simpl; auto.
Qed.

Lemma convertField_columnOk (fuel : nat) :
  forall (g : ProtoPackage) (cur : PkgRef) (d : FieldDescriptorProto)
         (mo : option BigQueryMessageOptions) (f : Field),
    convertField fuel g cur d mo = Ok (Some f) -> columnOk f.
Proof.
  induction fuel as [|fuel IH]; intros g cur d mo f H;
    rewrite convertField_eq in H;
    (destruct (columnHead d mo) as [[f0|]| |] eqn:Hh; try discriminate);
    pose proof (columnHead_mode _ _ _ Hh) as Hmode;
    pose proof (columnHead_Fields _ _ _ Hh) as Hfs;
    (destruct (String.eqb_spec (Type_ f0) "RECORD") as [E|E];
     cbn [negb] in H;
     [|inversion H; subst; constructor;
       [exact Hmode|rewrite Hfs; split; [contradiction|congruence]
       |rewrite Hfs; constructor]]);
    (destruct (typeFromWKT !! fd_TypeName d) as [t|] eqn:Hw;
     [inversion H; subst; constructor;
      [exact Hmode
      |cbn; rewrite Hfs; split;
       [intros Ht; destruct (typeFromWKT_not_RECORD _ _ Hw Ht)|congruence]
      |cbn; rewrite Hfs; constructor]|]);
    (destruct (lookupType g cur (fd_TypeName d)) as [rt|]; [|discriminate]);
    (destruct (getBigqueryMessageOptions rt) as [fmo| |]; try discriminate).
  destruct (convertMessageType fuel g cur rt fmo) as [[|x xs]| |] eqn:Hc;
    try discriminate.
  inversion H; subst. constructor.
  - exact Hmode.
  - cbn. split; [discriminate|intros _; exact E].
  - cbn. unfold convertMessageType in Hc.
    apply (convertFields_Forall columnOk
             (fun fd => convertField fuel g cur fd fmo) (d_Field rt));
      [|exact Hc].
    intros fd f' _ Hf'. exact (IH _ _ _ _ _ Hf').
Qed.

(** X10. Every column that the converter returns, at every depth, has one of the
    modes [NULLABLE], [REQUIRED], [REPEATED], and has nested columns exactly
    when its type is [RECORD]; this holds for the columns of a field, of a
    message and of every artifact of a file. *)
Theorem columns_well_formed (fuel : nat) (g : ProtoPackage) :
  (forall (cur : PkgRef) (d : FieldDescriptorProto)
          (mo : option BigQueryMessageOptions) (f : Field),
      convertField fuel g cur d mo = Ok (Some f) -> columnOk f)
  /\ (forall (cur : PkgRef) (msg : DescriptorProto)
             (mo : option BigQueryMessageOptions) (out : list Field),
        convertMessageType fuel g cur msg mo = Ok out -> Forall columnOk out)
  /\ (forall (file : FileDescriptorProto)
             (out : list CodeGeneratorResponse_File),
        convertFile fuel g file = Ok out ->
        Forall (fun art => Forall columnOk (rf_Content art)) out).
Proof.
  assert (HM : forall (cur : PkgRef) (msg : DescriptorProto)
                      (mo : option BigQueryMessageOptions) (out : list Field),
             convertMessageType fuel g cur msg mo = Ok out ->
             Forall columnOk out).
  { intros cur msg mo out H. unfold convertMessageType in H.
    apply (convertFields_Forall columnOk
             (fun fd => convertField fuel g cur fd mo) (d_Field msg));
      [|exact H].
    intros fd f _ Hf. exact (convertField_columnOk _ _ _ _ _ _ Hf). }
  split; [intros; eapply convertField_columnOk; eauto|]. split; [exact HM|].
  intros file out H. unfold convertFile in H.
  destruct (relativelyLookupPackage [g] (GetPackage file)) as [pkg|];
    [|discriminate].
  assert (G : forall msgs resp out',
             Forall (fun art => Forall columnOk (rf_Content art)) resp ->
             convertMessages fuel g pkg file msgs resp = Ok out' ->
             Forall (fun art => Forall columnOk (rf_Content art)) out').
  { induction msgs as [|m msgs IHm]; intros resp out' Hresp Hc.
    - inversion Hc; subst. exact Hresp.
    - rewrite convertMessages_cons in Hc.
      destruct (getBigqueryMessageOptions m) as [[o|]| |]; try discriminate;
        [|eauto].
      destruct (convertMessageType fuel g pkg m (Some o)) as [schema| |] eqn:Hs;
        try discriminate.
      eapply IHm; [|exact Hc].
      apply Forall_app. split; [exact Hresp|].
      repeat constructor. simpl. exact (HM _ _ _ _ Hs). }
  eapply G; [|exact H]. constructor.
Qed.

End Columns.

(** ** The resolver of the options, again *)

Section ResolverFacts.

Lemma columnHead_json_irrelevant (d : FieldDescriptorProto) (j : string)
    (mo : option BigQueryMessageOptions) :
  GetUseJsonNames mo = false ->
  columnHead (withJsonName d j) mo = columnHead d mo.
Proof. intros H. unfold columnHead. rewrite H. reflexivity. Qed.

(** X11. The resolver never asks for the alternate names: the options that it
    yields for any message, absent or not, leave them unused, and the
    conversion of a field under such options does not depend on the alternate
    name of the field. Every conversion that [convertFile] starts, for a
    message of the file or for the message of a record field, runs under
    options of the resolver. *)
Theorem alternate_names_never_used (msg : DescriptorProto)
    (mo : option BigQueryMessageOptions) :
  getBigqueryMessageOptions msg = Ok mo ->
  GetUseJsonNames mo = false
  /\ forall (fuel : nat) (g : ProtoPackage) (cur : PkgRef)
            (d : FieldDescriptorProto) (j : string),
       convertField fuel g cur (withJsonName d j) mo
       = convertField fuel g cur d mo.
Proof.
  intros H.
  assert (Hj : GetUseJsonNames mo = false).
  { destruct mo as [o|]; [|reflexivity].
    exact (proj1 (resolver_options msg o H)). }
  split; [exact Hj|]. intros fuel g cur d j.
  rewrite !convertField_eq, (columnHead_json_irrelevant d j mo Hj).
  reflexivity.
Qed.

Lemma alternate_names_never_used_witness :
  convertField 0 globalPkg0 []
    (withJsonName (SampleFields.scalar "id" TYPE_STRING) "identifier")
    (Some {| TableName := "purchase_v2"; UseJsonNames := false |})
  = convertField 0 globalPkg0 [] (SampleFields.scalar "id" TYPE_STRING)
      (Some {| TableName := "purchase_v2"; UseJsonNames := false |}).
Proof.
  destruct (alternate_names_never_used SampleMessages.purchase
              (Some {| TableName := "purchase_v2"; UseJsonNames := false |})
              eq_refl) as [_ H].
  apply H.
Defined.


End ResolverFacts.

(** ** The artifacts of a file and of a request *)

Section Artifacts.





Lemma targetsOf_lookup (names : list string) (n : string) :
  targetsOf names !! n
  = if existsb (String.eqb n) names then Some true else None.
Proof.
  unfold targetsOf.
  assert (G : forall (m : gmap string bool),
             fold_left (fun m file => <[file := true]> m) names m !! n
             = if existsb (String.eqb n) names then Some true else m !! n).
  { induction names as [|x names IH]; intros m; simpl; [reflexivity|].
    rewrite IH. destruct (existsb (String.eqb n) names).
    - rewrite orb_true_r. reflexivity.
    - rewrite orb_false_r. destruct (String.eqb_spec n x) as [->|Hne].
      + apply lookup_insert_eq.
      + apply lookup_insert_ne. congruence. }
  rewrite G, lookup_empty. reflexivity.
Qed.

Lemma convertRequested_success (fuel : nat) (g : ProtoPackage)
    (names : list string) (files : list FileDescriptorProto) :
  forall (res0 res : CodeGeneratorResponse),
    convertRequested fuel g (targetsOf names) files res0 = Some (res, None)
    <->
    exists arts : list (list CodeGeneratorResponse_File),
      Forall2 (fun f a => convertFile fuel g f = Ok a)
              (List.filter
                 (fun f => existsb (String.eqb (file_Name f)) names) files)
              arts
      /\ res = {| Error := Error res0;
                  File := (File res0 ++ concat arts)%list |}.
Proof.
  induction files as [|file rest IH]; intros res0 res; simpl.
  - split.
    + intros H. inversion H; subst. exists []. split; [constructor|].
      simpl. rewrite app_nil_r. destruct res; reflexivity.
    + intros (arts & Ha & ->). inversion Ha; subst. simpl.
      rewrite app_nil_r. destruct res0; reflexivity.
  - rewrite targetsOf_lookup.
    destruct (existsb (String.eqb (file_Name file)) names).
    + destruct (convertFile fuel g file) as [converted|e|] eqn:Hc.
      * rewrite IH. simpl. split.
        -- intros (arts & Ha & ->). exists (converted :: arts).
           split; [constructor; assumption|]. simpl.
           rewrite app_assoc. reflexivity.
        -- intros (arts & Ha & ->).
           inversion Ha as [|? a ? arts' Hf Hrest]; subst.
           rewrite Hc in Hf. inversion Hf; subst.
           exists arts'. split; [exact Hrest|]. simpl.
           rewrite app_assoc. reflexivity.
      * split; [discriminate|]. intros (arts & Ha & _).
        inversion Ha as [|? a ? arts' Hf Hrest]; subst.
        rewrite Hc in Hf. discriminate.
      * split; [discriminate|]. intros (arts & Ha & _).
        inversion Ha as [|? a ? arts' Hf Hrest]; subst.
        rewrite Hc in Hf. discriminate.
    + apply IH.
Qed.

(** X15. [Convert] returns without an error exactly when every requested file
    among the files of the request converts; the file list of the response
    is then the artifacts of those files, in the order of the files of the
    request. The files that are not requested are registered only: whether
    they would convert plays no part, and a requested name that no file of
    the request bears is passed over. *)
Theorem Convert_success (fuel : nat) (g : ProtoPackage)
    (req : CodeGeneratorRequest) (res : CodeGeneratorResponse) :
  Convert fuel g req = Some (res, None) <->
  exists arts : list (list CodeGeneratorResponse_File),
    Forall2 (fun f a => convertFile fuel (registerAll g (ProtoFile req)) f
                        = Ok a)
            (requestedFiles req) arts
    /\ res = {| Error := None; File := concat arts |}.
Proof.
  unfold Convert, requestedFiles. rewrite convertRequested_success.
  reflexivity.
Qed.

End Artifacts.

(** ** A message that refers to itself *)

Section Cycle.

Lemma convertFields_NoFuel (cf : FieldDescriptorProto -> result (option Field))
    (pre post : list FieldDescriptorProto) (d : FieldDescriptorProto) :
  Forall (fun x => exists r, cf x = Ok r) pre ->
  cf d = NoFuel ->
  forall acc : list Field, convertFields cf (pre ++ d :: post) acc = NoFuel.
Proof.
  intros Hpre Hd. induction Hpre as [|x pre [r Hx] _ IH]; intros acc; simpl.
  - rewrite Hd. reflexivity.
  - rewrite Hx. destruct r; apply IH.
Qed.

(** X16. The source has no guard against cycles. When a message has a record
    field whose reference resolves to the message itself, the fields before
    it converting without an error, the conversion of the message under its
    own options does not return, however deep the recursion is allowed to go;
    and when the message is annotated, neither does the loop of
    [convertFile] over a list of messages that starts with it. *)
Theorem self_reference_never_returns (g : ProtoPackage) (cur : PkgRef)
    (msg : DescriptorProto) (fmo : option BigQueryMessageOptions)
    (pre post : list FieldDescriptorProto) (d : FieldDescriptorProto)
    (f0 : Field) :
  getBigqueryMessageOptions msg = Ok fmo ->
  d_Field msg = (pre ++ d :: post)%list ->
  Forall (fun x => forall fuel : nat,
              exists r, convertField fuel g cur x fmo = Ok r) pre ->
  columnHead d fmo = Ok (Some f0) ->
  Type_ f0 = "RECORD" ->
  typeFromWKT !! fd_TypeName d = None ->
  lookupType g cur (fd_TypeName d) = Some msg ->
  forall fuel : nat,
    convertField fuel g cur d fmo = NoFuel
    /\ convertMessageType fuel g cur msg fmo = NoFuel
    /\ (forall (o : BigQueryMessageOptions) (file : FileDescriptorProto)
               (rest : list DescriptorProto)
               (resp : list CodeGeneratorResponse_File),
          fmo = Some o ->
          convertMessages fuel g cur file (msg :: rest) resp = NoFuel).
Proof.
  intros Ho Hf Hpre Hh Hty Hw Hl.
  assert (HM : forall fuel,
             convertField fuel g cur d fmo = NoFuel ->
             convertMessageType fuel g cur msg fmo = NoFuel).
  { intros fuel Hd. unfold convertMessageType. rewrite Hf.
    apply (convertFields_NoFuel
             (fun fd => convertField fuel g cur fd fmo)); [|exact Hd].
    eapply Forall_impl; [exact Hpre|]. intros x Hx. apply Hx. }
  assert (HD : forall fuel, convertField fuel g cur d fmo = NoFuel).
  { induction fuel as [|fuel IH];
      rewrite convertField_eq, Hh, Hty, Hw, Hl, Ho; cbn [String.eqb negb].
    - reflexivity.
    - rewrite (HM fuel IH). reflexivity. }
  intros fuel. split; [apply HD|]. split; [apply HM, HD|].
  intros o file rest resp ->.
  rewrite convertMessages_cons, Ho, (HM fuel (HD fuel)). reflexivity.
Qed.

Lemma self_reference_never_returns_witness :
  convertFile 25 SampleCycle.tree SampleCycle.file = NoFuel.
Proof.
  assert (Hpre : Forall (fun x => forall fuel : nat,
                           exists r, convertField fuel SampleCycle.tree
                                       SampleCycle.chain x
                                       (Some {| TableName := "node_v1";
                                                UseJsonNames := false |})
                                     = Ok r)
                        [SampleFields.scalar "id" TYPE_INT64]).
  { repeat constructor. intros fuel'. eexists.
    rewrite convertField_eq. reflexivity. }
  destruct (self_reference_never_returns SampleCycle.tree SampleCycle.chain
              SampleCycle.node
              (Some {| TableName := "node_v1"; UseJsonNames := false |})
              [SampleFields.scalar "id" TYPE_INT64] []
              (SampleFields.record "next" ".p.Node")
              (mkField "next" "RECORD" "NULLABLE" "" [])
              eq_refl eq_refl Hpre eq_refl eq_refl eq_refl eq_refl 25)
    as (_ & _ & H).
  exact (H _ SampleCycle.file [] [] eq_refl).
Defined.

End Cycle.

(** ** Nested types by qualified name *)

Section NestedByName.

Lemma append_sep_assoc (a b c : string) :
  (a ++ String sep b) ++ String sep c = a ++ String sep (b ++ String sep c).
Proof.
  induction a as [|x a IH]; [reflexivity|].
  change (String x ((a ++ String sep b) ++ String sep c)
          = String x (a ++ String sep (b ++ String sep c))).
  f_equal. exact IH.
Qed.

Lemma relativelyLookupType_nested (comps : list string) :
  forall (pkg : ProtoPackage) (o rest : string) (outer : DescriptorProto),
    Forall (fun c => dotfree c = true) comps -> dotfree o = true ->
    typeAt pkg comps o = Some outer ->
    nodeAt pkg (comps ++ [o]) = None ->
    relativelyLookupType pkg (joinDots (comps ++ [o]) ++ String sep rest)
    = relativelyLookupNestedType outer rest.
Proof.
  induction comps as [|c cs IH]; intros pkg o rest outer Hc Ho Ht Hn.
  - simpl in *. rewrite relativelyLookupType_eq, SplitN2_app_sep by exact Ho.
    destruct (children pkg !! o); [discriminate|]. rewrite Ht. reflexivity.
  - inversion Hc; subst. simpl in Ht, Hn.
    destruct (children pkg !! c) as [child|] eqn:Hch; [|discriminate].
    change ((c :: cs) ++ [o])%list with (c :: (cs ++ [o]))%list.
    rewrite joinDots_cons by (destruct cs; discriminate).
    rewrite append_sep_assoc.
    rewrite relativelyLookupType_eq, SplitN2_app_sep, Hch by assumption.
    apply IH; assumption.
Qed.

(** X8. Only the messages of a file are registered, not their nested types; a
    nested type is reached through its enclosing message. For a message
    registered under a package path, with no package of the same qualified
    name in the tree, the absolute reference of the message followed by a
    separator and further segments resolves, from any current node, to what
    the walk through the nested types of the message gives for those
    segments: the first nested type of each name, or nothing. *)
Theorem nested_type_by_qualified_name
    (g : ProtoPackage) (pkgName : option string) (outer : DescriptorProto)
    (later : list (option string * DescriptorProto)) (cur : PkgRef)
    (rest : string) :
  dotfree (d_Name outer) = true ->
  Forall (fun r => target r <> target (pkgName, outer)) later ->
  nodeAt (registerEach (registerType g pkgName outer) later)
         (packagePath pkgName ++ [d_Name outer]) = None ->
  lookupType (registerEach (registerType g pkgName outer) later) cur
             (absoluteRef pkgName (d_Name outer) ++ String sep rest)
  = relativelyLookupNestedType outer rest.
Proof.
  intros Hn Hlater Hnode. unfold absoluteRef, lookupType.
  change (HasPrefixDot (("." ++ joinDots (packagePath pkgName ++ [d_Name outer]))
                        ++ String sep rest)) with true.
  cbv iota.
  change (tail1 (("." ++ joinDots (packagePath pkgName ++ [d_Name outer]))
                 ++ String sep rest))
    with (joinDots (packagePath pkgName ++ [d_Name outer]) ++ String sep rest).
  apply relativelyLookupType_nested;
    [apply packagePath_dotfree|exact Hn| |exact Hnode].
  rewrite typeAt_registerEach by exact Hlater.
  rewrite registerType_path. apply typeAt_registerAt_same.
Qed.

Lemma nested_type_by_qualified_name_witness :
  lookupType (registerEach (registerType globalPkg0 (Some "q") Sample.outerA)
                           [(Some "q", Sample.msgM)])
             [] ".q.A.B"
  = Some Sample.innerB.
Proof.
  etransitivity.
  - apply (nested_type_by_qualified_name globalPkg0 (Some "q") Sample.outerA
             [(Some "q", Sample.msgM)] [] "B").
    + reflexivity.
    + repeat constructor; vm_compute; discriminate.
    + vm_compute. reflexivity.
  - vm_compute. reflexivity.
Defined.

End NestedByName.
(** ** Table names and artifact paths *)

Section TableNames.



End TableNames.
Section TableNames2.




End TableNames2.

Section ArtifactPaths.






End ArtifactPaths.

(** ** Instances *)

Section Instances.

Lemma convertFile_without_package_witness :
  convertFile 3 (registerAll globalPkg0 [SampleEdge.noPackage])
              SampleEdge.noPackage
  = Err "no such package found: ".
Proof.
  apply (convertFile_without_package 3 [SampleEdge.noPackage]
           SampleEdge.noPackage).
  left. reflexivity.
Defined.


Lemma Convert_success_witness :
  Convert 0 globalPkg0 SampleEdge.strayRequest
  = Some ({| Error := None; File := [] |}, None).
Proof.
  apply (Convert_success 0 globalPkg0 SampleEdge.strayRequest
           {| Error := None; File := [] |}).
  exists []. split; [constructor|reflexivity].
Defined.

Lemma convertMessageType_columns_witness :
  convertMessageType 0 globalPkg0 [] SampleMessages.broken None
  = Err "unrecognized field label: 7".
Proof.
  apply (convertMessageType_columns 0 globalPkg0 [] SampleMessages.broken None).
  exists [], (hd (SampleFields.scalar "" 0) (d_Field SampleMessages.broken)), [].
  repeat split. constructor.
Defined.

Lemma columns_well_formed_witness :
  Forall columnOk [mkField "id" "INTEGER" "NULLABLE" "" []].
Proof.
  destruct (columns_well_formed 2 SampleMessages.treeP) as (_ & H & _).
  apply (H [SampleMessages.treeP] SampleMessages.top None). reflexivity.
Defined.

End Instances.
